(** * Calico: scripted test cases and scored suites (calico/base.py)

    A shallow embedding of [calico/base.py]: the classes [Action],
    [TestCase] and [Calico] and their methods, followed by the properties
    of script replay, exit status checking, scoring and blocker handling.

    The child process is driven through the pexpect library, which is not
    part of the repository.  Every pexpect (and [os.environ]) call the code
    makes is recorded, in order, in a history; what a call answers is read
    from a [World], an arbitrary function of the history so far.  Debug
    logging and the progress lines printed by [Calico.run] have no effect on
    any value the code returns and are left out.  Points are integers. *)

From Stdlib Require Import List String ZArith Bool Lia.
Import ListNotations.
Local Open Scope string_scope.
Local Open Scope list_scope.
Local Open Scope Z_scope.

(** ** The pexpect interface *)

(** [action.data] after construction: a string, or the class [pexpect.EOF]. *)
Inductive Data : Type :=
| Str (s : string)
| pexpect_EOF.

(** The calls made on the outside world. *)
Inductive call : Type :=
| Setenv (key value : string)               (* os.environ[key] = value *)
| Spawn (command : string)                  (* pexpect.spawn(command) *)
| Setecho (state : bool)                    (* process.setecho(state) *)
| Expect (pattern : Data) (timeout : option Z)
                                            (* process.expect(pattern, timeout=timeout) *)
| Sendline (s : Data)                       (* process.sendline(s) *)
| Close (force : bool).                     (* process.close(force=force) *)

(** How [process.expect] comes back: it returns on a match, or raises
    [pexpect.EOF] or [pexpect.TIMEOUT]. *)
Inductive ExpectResult : Type :=
| Matched
| RaisesEOF
| RaisesTIMEOUT.

(** The world outside the program.  [expect_result h] is the way the
    [process.expect] call that ends the history [h] comes back, [None]
    when it never does (an unbounded wait on a process that stays silent);
    [exitstatus h] is [process.exitstatus] after the history [h]. *)
Record World : Type := {
  expect_result : list call -> option ExpectResult;
  exitstatus : list call -> option Z;
  SUPPORTS_JAIL : bool;                     (* shutil.which("fakechroot") is not None *)
  getcwd : string                           (* os.getcwd() *)
}.

(** ** Computations over the call history *)

(** A computation reads and extends the history; it yields no value when a
    call it makes never returns. *)
Definition M (A : Type) : Type := list call -> option A * list call.

Definition ret {A : Type} (a : A) : M A := fun h => (Some a, h).

Definition bind {A B : Type} (m : M A) (f : A -> M B) : M B :=
  fun h => match m h with
           | (Some a, h') => f a h'
           | (None, h') => (None, h')
           end.

Declare Scope calico_scope.
Delimit Scope calico_scope with calico.
Notation "x <- m ;; k" := (bind m (fun x => k))
  (at level 61, m at next level, right associativity) : calico_scope.
Notation "' pat <- m ;; k" := (bind m (fun x => match x with pat => k end))
  (at level 61, pat pattern, m at next level, right associativity) : calico_scope.
Notation "m ;; k" := (bind m (fun _ => k))
  (at level 61, right associativity) : calico_scope.
Local Open Scope calico_scope.

(** A call that returns nothing of interest. *)
Definition do_call (c : call) : M unit := fun h => (Some tt, h ++ [c]).

(** [process.expect(pattern, timeout=timeout)]. *)
Definition expect (w : World) (pattern : Data) (timeout : option Z)
  : M ExpectResult :=
  fun h => let h' := h ++ [Expect pattern timeout] in (expect_result w h', h').

(** Reading [process.exitstatus]. *)
Definition get_exitstatus (w : World) : M (option Z) :=
  fun h => (Some (exitstatus w h), h).

(** ** OrderedDict with string keys *)

Module OrderedDict.

Definition t (V : Type) : Type := list (string * V).

Definition empty {V : Type} : t V := [].

(** [d[k]], [None] standing for KeyError. *)
Fixpoint get {V : Type} (k : string) (d : t V) : option V :=
  match d with
  | [] => None
  | (k', v) :: d' => if String.eqb k k' then Some v else get k d'
  end.

(** [d[k] = v]: an existing key keeps its place, a new one goes last. *)
Fixpoint set {V : Type} (k : string) (v : V) (d : t V) : t V :=
  match d with
  | [] => [(k, v)]
  | (k', v') :: d' =>
      if String.eqb k k' then (k', v) :: d' else (k', v') :: set k v d'
  end.

Definition keys {V : Type} (d : t V) : list string := map fst d.

End OrderedDict.

(** ** class ActionType *)

Inductive ActionType : Type :=
| EXPECT                                    (* ("e", "expect") *)
| SEND.                                     (* ("s", "send") *)

Definition ActionType_eqb (a b : ActionType) : bool :=
match a, b with
| EXPECT, EXPECT => true
| SEND, SEND => true
| _, _ => false
end.

(** [member.value], the pair the member is declared with. *)
Definition ActionType_value (member : ActionType) : string * string :=
  match member with
  | EXPECT => ("e", "expect")
  | SEND => ("s", "send")
  end.

(** ** class Action *)

Module Action.

Record t : Type := {
  type_ : ActionType;
  data : Data;
  timeout : option Z
}.

(** [Action.__init__(type_, data, timeout=None)]. *)
Definition init (type_ : ActionType) (data : string) (timeout : option Z) : t :=
  {| type_ := type_;
     data := if negb (String.eqb data "_EOF_") then Str data else pexpect_EOF;
     timeout := timeout |}.

(** [action == member] for an [Action] on the left and a member of
    [ActionType] on the right.  [Action] defines no [__eq__] and the
    members of a plain [Enum] compare by identity, so Python falls back to
    [action is member], which no [Action] object satisfies. *)
Definition eq_ActionType (action : t) (member : ActionType) : bool := false.

(** [Action.__iter__]: the three values it yields, in order. *)
Definition iter (self : t) : string * string * option Z :=
  (fst (ActionType_value (type_ self)),
   match data self with
   | Str s => s
   | pexpect_EOF => "_EOF_"
   end,
   timeout self).

End Action.

(** ** class TestCase *)

(** The report of one case: the dict [{"errors": [...]}], to which
  [Calico.run] adds the key ["points"] for a scored case. *)
Module Report.

Record t : Type := {
  errors : list string;
  points : option Z                       (* None: no "points" key *)
}.

Definition set_points (r : t) (p : Z) : t :=
  {| errors := errors r; points := Some p |}.

End Report.

(** How a [for] loop was left. *)
Inductive LoopExit : Type :=
| Exhausted                                 (* the else clause runs *)
| Break.

Module TestCase.

Record t : Type := {
  name : string;
  command : string;
  script : list Action.t;
  timeout : option Z;
  returns : option Z;
  points : option Z;
  blocker : bool;
  visible : bool
}.

(** [TestCase.__init__]: the script starts empty. *)
Definition init (name command : string) (timeout returns points : option Z)
  (blocker visible : bool) : t :=
  {| name := name; command := command; script := [];
     timeout := timeout; returns := returns; points := points;
     blocker := blocker; visible := visible |}.

(** [TestCase.add_action]. *)
Definition add_action (self : t) (action : Action.t) : t :=
  {| name := name self; command := command self;
     script := script self ++ [action];
     timeout := timeout self; returns := returns self;
     points := points self; blocker := blocker self;
     visible := visible self |}.

Section Run.

Variable w : World.

(** The loop [for action in self.script] of [run_script]. *)
Fixpoint replay (script : list Action.t) (errors : list string)
  : M (LoopExit * list string) :=
  match script with
  | [] => ret (Exhausted, errors)
  | action :: rest =>
      if ActionType_eqb (Action.type_ action) EXPECT then
        r <- expect w (Action.data action) (Action.timeout action) ;;
        match r with
        | Matched => replay rest errors
        | RaisesEOF =>
            do_call (Close true) ;;
            ret (Break, errors ++ ["Expected output not received."])
        | RaisesTIMEOUT =>
            do_call (Close true) ;;
            ret (Break, errors ++ ["Timeout exceeded."])
        end
      else if Action.eq_ActionType action SEND then
        do_call (Sendline (Action.data action)) ;;
        replay rest errors
      else replay rest errors
  end.

(** [TestCase.run_script(command)]. *)
Definition run_script (self : t) (command : string)
  : M (option Z * list string) :=
  do_call (Spawn command) ;;
  do_call (Setecho false) ;;
  '(exit, errors) <- replay (script self) [] ;;
  match exit with
  | Exhausted => do_call (Close true)
  | Break => ret tt
  end ;;
  exit_status <- get_exitstatus w ;;
  ret (exit_status, errors).

(** [exit_status != self.returns] for an exit status that is an int or
    [None] and an expected value that is an int. *)
Definition status_differs (exit_status : option Z) (returns : Z) : bool :=
  match exit_status with
  | Some s => negb (s =? returns)
  | None => true
  end.

(** The local [jail_prefix] of [run]. *)
Definition jail_prefix (jailed : bool) : string :=
  if jailed then ("fakechroot chroot " ++ getcwd w ++ " ")%string
  else ""%string.

(** [TestCase.run(jailed=jailed)]. *)
Definition run (self : t) (jailed : bool) : M Report.t :=
  let errors0 : list string := [] in
  let command := (jail_prefix jailed ++ command self)%string in
  '(exit_status, errors) <- run_script self command ;;
  let errors1 := errors0 ++ errors in
  let errors2 :=
    match returns self with
    | Some expected =>
        if status_differs exit_status expected
        then errors1 ++ ["Incorrect exit status."]
        else errors1
    | None => errors1
    end in
  ret {| Report.errors := errors2; Report.points := None |}.

End Run.

End TestCase.


(** ** class Calico *)

(** A value of the report of a suite: the report of a case under the
    case's name, and the earned points, a number, under ["points"]. *)
Inductive ReportValue : Type :=
| CaseReport (r : Report.t)
| Number (n : Z).

Module Calico.

(** An [OrderedDict] from names to cases, with the attribute [points]. *)
Record t : Type := {
  items : OrderedDict.t TestCase.t;
  points : Z
}.

(** [Calico.__init__]. *)
Definition init : t := {| items := OrderedDict.empty; points := 0 |}.

(** [Calico.add_case(case)]. *)
Definition add_case (self : t) (case : TestCase.t) : t :=
  {| items := OrderedDict.set (TestCase.name case) case (items self);
     points := points self
               + match TestCase.points case with Some p => p | None => 0 end |}.

(** A sequence of [add_case] calls. *)
Definition add_cases (self : t) (cases : list TestCase.t) : t :=
  fold_left add_case cases self.

Section Run.

Variable w : World.

(** The loop [for test_name, test in self.items()] of [Calico.run].  The
    dict that [test.run] returns is stored under [test_name] and, for a
    scored case, receives its ["points"] through [report[test_name]]. *)
Fixpoint run_cases (quiet : bool) (cases : list (string * TestCase.t))
  (report : OrderedDict.t ReportValue) (earned_points : Z)
  : M (LoopExit * OrderedDict.t ReportValue * Z) :=
  match cases with
  | [] => ret (Exhausted, report, earned_points)
  | (test_name, test) :: rest =>
      let jailed := SUPPORTS_JAIL w && String.prefix "case_" test_name in
      r <- TestCase.run w test jailed ;;
      let report := OrderedDict.set test_name (CaseReport r) report in
      let passed := Nat.eqb (List.length (Report.errors r)) 0 in
      let '(report, earned_points) :=
        match TestCase.points test with
        | None => (report, earned_points)
        | Some p =>
            let r' := Report.set_points r (if passed then p else 0) in
            (OrderedDict.set test_name (CaseReport r') report,
             earned_points + (if passed then p else 0))
        end in
      if TestCase.blocker test && negb passed
      then ret (Break, report, earned_points)
      else run_cases quiet rest report earned_points
  end.

(** [Calico.run(quiet=quiet)]: the suite as the call leaves it, and the
    report. *)
Definition run (self : t) (quiet : bool)
  : M (t * OrderedDict.t ReportValue) :=
  let report : OrderedDict.t ReportValue := OrderedDict.empty in
  let earned_points := 0 in
  do_call (Setenv "TERM" "dumb") ;;
  '(_, report, earned_points) <- run_cases quiet (items self) report earned_points ;;
  ret (self, OrderedDict.set "points" (Number earned_points) report).

End Run.

End Calico.


(** ** The wait bound as the specification words it *)

(** The bound on the wait of an expect action: the action's own timeout
    if it is set, otherwise the timeout of the case. *)
Definition effective_timeout_spec (case : TestCase.t) (action : Action.t)
  : option Z :=
  match Action.timeout action with
  | Some t => Some t
  | None => TestCase.timeout case
  end.

(** ** Notions used to state the properties of a suite *)

(** [case.points or 0]. *)
Definition points_or_zero (case : TestCase.t) : Z :=
  match TestCase.points case with
  | Some p => p
  | None => 0
  end.

(** [sum(case.points or 0 for case in cases)]. *)
Definition sum_points (cases : list TestCase.t) : Z :=
  fold_right Z.add 0 (map points_or_zero cases).

(** The points a report of a case carries, 0 when it has no ["points"]. *)
Definition awarded (r : Report.t) : Z :=
  match Report.points r with
  | Some p => p
  | None => 0
  end.

(** The sum of the points carried by the reports of the cases in a report
    of a suite. *)
Fixpoint sum_awarded (report : OrderedDict.t ReportValue) : Z :=
  match report with
  | [] => 0
  | (_, CaseReport r) :: report' => awarded r + sum_awarded report'
  | (_, Number _) :: report' => sum_awarded report'
  end.

(** The report [r] that [test.run] returned, as one iteration of the loop
    of [Calico.run] leaves it under the name of the case. *)
Definition graded (test : TestCase.t) (r : Report.t) : Report.t :=
  match TestCase.points test with
  | None => r
  | Some p =>
      Report.set_points r
        (if Nat.eqb (List.length (Report.errors r)) 0 then p else 0)
  end.

(** The report [r] of the case [test] carries all of its points when it
    has no errors, 0 when it has some, and no ["points"] when the case is
    not scored. *)
Definition points_all_or_nothing (test : TestCase.t) (r : Report.t) : Prop :=
  Report.points r =
  match TestCase.points test with
  | Some p => Some (match Report.errors r with [] => p | _ :: _ => 0 end)
  | None => None
  end.

(** The commands spawned in a history, in order. *)
Fixpoint spawned (h : list call) : list string :=
  match h with
  | [] => []
  | Spawn command :: h' => command :: spawned h'
  | _ :: h' => spawned h'
  end.

(** The command that [Calico.run] has the case [snd item], stored under
    the name [fst item], run. *)
Definition command_line (w : World) (item : string * TestCase.t) : string :=
  (TestCase.jail_prefix w (SUPPORTS_JAIL w && String.prefix "case_" (fst item))
   ++ TestCase.command (snd item))%string.

(** The calls of the loop of [run_script]. *)
Definition expect_or_close (c : call) : Prop :=
  match c with
  | Expect _ _ | Close true => True
  | _ => False
  end.

(** ** Notions used to state further properties *)

(** A sequence of [add_action] calls. *)
Definition add_actions (self : TestCase.t) (actions : list Action.t)
  : TestCase.t :=
  fold_left TestCase.add_action actions self.

(** The expect actions of a script, in order. *)
Definition expects (script : list Action.t) : list Action.t :=
  filter (fun a => ActionType_eqb (Action.type_ a) EXPECT) script.

(** The call [run_script] makes for an expect action. *)
Definition expect_call (a : Action.t) : call :=
  Expect (Action.data a) (Action.timeout a).

(** The case a name leads to after a sequence of [add_case] calls: the
    last case added under this name. *)
Definition last_added (k : string) (cases : list TestCase.t)
  : option TestCase.t :=
  find (fun c => String.eqb (TestCase.name c) k) (rev cases).

(** The entry [add_case] stores for a case. *)
Definition entry (case : TestCase.t) : string * TestCase.t :=
  (TestCase.name case, case).

(** ** The progress label of [Calico.run] *)





(** ** Sample worlds, cases and suites *)

(** The command of the child that is running at the end of a history. *)
Fixpoint last_command (h : list call) (current : string) : string :=
  match h with
  | [] => current
  | Spawn command :: h' => last_command h' command
  | _ :: h' => last_command h' current
  end.

(** A small shell.  [echo hi; exit 3] prints hi and exits with status 3;
    [cat] prints nothing and waits for input for ever, so that a bounded
    wait on it times out and an unbounded one never returns (its exit status
    after a forced close is [None]); any other command, such as [true] or
    [false], prints nothing and exits at once. *)
Definition shell : World :=
  {| expect_result := fun h =>
       match last h (Close true) with
       | Expect pattern timeout =>
           let command := last_command h "" in
           if String.eqb command "echo hi; exit 3" then
             match pattern with
             | Str "hi" => Some Matched
             | Str _ => Some RaisesEOF
             | pexpect_EOF => Some Matched
             end
           else if String.eqb command "cat" then
             match timeout with
             | Some _ => Some RaisesTIMEOUT
             | None => None
             end
           else
             match pattern with
             | Str _ => Some RaisesEOF
             | pexpect_EOF => Some Matched
             end
       | _ => None
       end;
     exitstatus := fun h =>
       let command := last_command h "" in
       if String.eqb command "echo hi; exit 3" then Some 3
       else if String.eqb command "cat" then None
       else if String.eqb command "false" then Some 1
       else Some 0;
     SUPPORTS_JAIL := false;
     getcwd := "/home/grader" |}.

(** A case with a one-action script. *)
Definition one_action_case (name command : string) (action : Action.t)
  (timeout returns points : option Z) (blocker : bool) : TestCase.t :=
  TestCase.add_action
    (TestCase.init name command timeout returns points blocker true) action.

(** [echo hi; exit 3] asked for hi, then for bye, then sent a line. *)
Definition case_eof : TestCase.t :=
  TestCase.add_action
    (TestCase.add_action
       (one_action_case "eof" "echo hi; exit 3"
          (Action.init EXPECT "hi" None) None None None false)
       (Action.init EXPECT "bye" None))
    (Action.init SEND "more" None).

(** [cat] with a case timeout of one second and an expect action without
    a timeout of its own. *)
Definition case_slow : TestCase.t :=
  one_action_case "slow" "cat" (Action.init EXPECT "x" None)
    (Some 1) None None false.

(** [cat] with an expect action that has a timeout of one second. *)
Definition case_slow_bounded : TestCase.t :=
  one_action_case "slow_bounded" "cat" (Action.init EXPECT "x" (Some 1))
    None None None false.

(** [echo hi; exit 3] expected to exit with status 0. *)
Definition case_status : TestCase.t :=
  one_action_case "status" "echo hi; exit 3" (Action.init EXPECT "hi" None)
    None (Some 0) None false.

(** The suite of the specification: three cases worth 10, 20 and 30
    points, the second of which is a blocker and fails. *)
Definition case_first : TestCase.t :=
  one_action_case "first" "echo hi; exit 3" (Action.init EXPECT "hi" None)
    None None (Some 10) false.

Definition case_second : TestCase.t :=
  one_action_case "second" "true" (Action.init EXPECT "ready" None)
    None None (Some 20) true.

Definition case_third : TestCase.t :=
  one_action_case "third" "echo hi; exit 3" (Action.init EXPECT "hi" None)
    None None (Some 30) false.

Definition suite_of_three : Calico.t :=
  Calico.add_cases Calico.init [case_first; case_second; case_third].

(** A blocker that fails, followed by a case named points that would
    pass. *)
Definition case_gate : TestCase.t :=
  one_action_case "gate" "true" (Action.init EXPECT "ready" None)
    None None None true.

Definition case_points : TestCase.t :=
  one_action_case "points" "echo hi; exit 3" (Action.init EXPECT "hi" None)
    None None (Some 5) false.

Definition suite_gate : Calico.t :=
  Calico.add_cases Calico.init [case_gate; case_points].

(** A case named points that is run, followed by another case. *)
Definition suite_points : Calico.t :=
  Calico.add_cases Calico.init [case_points; case_first].

(** Another case named first, worth 7 points. *)
Definition case_first_again : TestCase.t :=
  one_action_case "first" "true" (Action.init EXPECT "_EOF_" None)
    None None (Some 7) false.

(** The case [case_eof] without its send action. *)
Definition case_eof_expects : TestCase.t :=
  TestCase.add_action
    (one_action_case "eof" "echo hi; exit 3"
       (Action.init EXPECT "hi" None) None None None false)
    (Action.init EXPECT "bye" None).

(** [cat] sent two lines and asked for nothing. *)
Definition case_send : TestCase.t :=
  TestCase.add_action
    (one_action_case "send" "cat" (Action.init SEND "hello" None)
       None None None false)
    (Action.init SEND "world" None).

(** Two cases that pass. *)
Definition suite_passing : Calico.t :=
  Calico.add_cases Calico.init [case_first; case_third].

(** * Properties *)

(** ** Script replay *)

Section ReplayFacts.

Variable w : World.

Lemma replay_app (pre rest : list Action.t) (errors : list string) (h : list call) :
  TestCase.replay w (pre ++ rest) errors h =
  match TestCase.replay w pre errors h with
  | (Some (Exhausted, errors'), h') => TestCase.replay w rest errors' h'
  | stopped => stopped
  end.
Proof.
  revert errors h.
  induction pre as [|a pre IH]; intros errors h; simpl.
  - reflexivity.
  - destruct (ActionType_eqb (Action.type_ a) EXPECT).
    + unfold bind, expect.
      destruct (expect_result w (h ++ [Expect (Action.data a) (Action.timeout a)]))
        as [[| |]|]; simpl; try reflexivity.
      apply IH.
    + unfold Action.eq_ActionType. apply IH.
Qed.

(** A loop that runs to its end leaves the error list as it found it. *)
Lemma replay_exhausted (script : list Action.t) (errors errors' : list string)
  (h h' : list call) :
  TestCase.replay w script errors h = (Some (Exhausted, errors'), h') ->
  errors' = errors.
Proof.
  revert errors h.
  induction script as [|a script IH]; intros errors h; simpl.
  - unfold ret. intros H. now inversion H.
  - destruct (ActionType_eqb (Action.type_ a) EXPECT).
    + unfold bind, expect.
      destruct (expect_result w (h ++ [Expect (Action.data a) (Action.timeout a)]))
        as [[| |]|]; simpl; try discriminate.
      apply IH.
    + unfold Action.eq_ActionType. apply IH.
Qed.

(** A loop left through [break] has added one error, one of two. *)
Lemma replay_break (script : list Action.t) (errors errors' : list string)
  (h h' : list call) :
  TestCase.replay w script errors h = (Some (Break, errors'), h') ->
  errors' = errors ++ ["Expected output not received."]
  \/ errors' = errors ++ ["Timeout exceeded."].
Proof.
  revert errors h.
  induction script as [|a script IH]; intros errors h; simpl.
  - unfold ret. discriminate.
  - destruct (ActionType_eqb (Action.type_ a) EXPECT).
    + unfold bind, expect, do_call, ret.
      destruct (expect_result w (h ++ [Expect (Action.data a) (Action.timeout a)]))
        as [[| |]|]; simpl; try discriminate.
      * apply IH.
      * intros H. inversion H. now left.
      * intros H. inversion H. now right.
    + unfold Action.eq_ActionType. apply IH.
Qed.

(** The calls of the loop are expects and forced closes: nothing is sent
    and nothing is spawned. *)
Lemma replay_calls (script : list Action.t) (errors : list string)
  (h : list call) :
  exists calls,
    snd (TestCase.replay w script errors h) = h ++ calls
    /\ Forall expect_or_close calls.
Proof.
  revert errors h.
  induction script as [|a script IH]; intros errors h; simpl.
  - exists []. rewrite app_nil_r. auto.
  - destruct (ActionType_eqb (Action.type_ a) EXPECT).
    + unfold bind, expect, do_call, ret.
      set (e := Expect (Action.data a) (Action.timeout a)).
      destruct (expect_result w (h ++ [e])) as [[| |]|]; simpl.
      * destruct (IH errors (h ++ [e])) as [calls [E F]].
        exists (e :: calls). rewrite E, <- app_assoc. split; [reflexivity|].
        constructor; [exact I | exact F].
      * exists [e; Close true]. rewrite <- app_assoc. split; [reflexivity|].
        repeat constructor.
      * exists [e; Close true]. rewrite <- app_assoc. split; [reflexivity|].
        repeat constructor.
      * exists [e]. split; [reflexivity|]. repeat constructor.
    + unfold Action.eq_ActionType. apply IH.
Qed.

(** What [run_script] does once the loop has stopped at an expect action
    that raised. *)
Lemma run_script_break (self : TestCase.t) (command : string)
  (h h' : list call) (errors : list string) :
  TestCase.replay w (TestCase.script self) [] (h ++ [Spawn command; Setecho false])
  = (Some (Break, errors), h') ->
  TestCase.run_script w self command h
  = (Some (exitstatus w h', errors), h').
Proof.
  intros H. unfold TestCase.run_script, bind, do_call, get_exitstatus, ret.
  simpl. rewrite <- app_assoc. simpl. rewrite H. reflexivity.
Qed.

(** The errors of a replay are the two errors of the expect action. *)
Lemma run_script_errors (self : TestCase.t) (command : string)
  (h h' : list call) (status : option Z) (errors : list string) :
  TestCase.run_script w self command h = (Some (status, errors), h') ->
  errors = [] \/ errors = ["Expected output not received."]
  \/ errors = ["Timeout exceeded."].
Proof.
  unfold TestCase.run_script, bind, do_call, get_exitstatus, ret. simpl.
  destruct (TestCase.replay w (TestCase.script self) [] ((h ++ [Spawn command]) ++ [Setecho false]))
    as [[[[|] errors']|] h1] eqn:E; try discriminate.
  - intros H. inversion H. subst. left. eapply replay_exhausted. exact E.
  - intros H. inversion H. subst. right. apply replay_break in E. exact E.
Qed.

End ReplayFacts.

Section ReplayClaims.

Variable w : World.

(** The calls of [run_script]: a spawn, the echo turned off, then expects
    and forced closes. *)
Lemma run_script_calls (self : TestCase.t) (command : string)
  (h : list call) :
  exists calls,
    snd (TestCase.run_script w self command h)
    = h ++ Spawn command :: Setecho false :: calls
    /\ Forall expect_or_close calls.
Proof.
  unfold TestCase.run_script, bind, do_call, get_exitstatus, ret. simpl.
  set (h0 := (h ++ [Spawn command]) ++ [Setecho false]).
  destruct (replay_calls w (TestCase.script self) [] h0) as [calls [E F]].
  destruct (TestCase.replay w (TestCase.script self) [] h0)
    as [[[[|] errors]|] h1]; simpl in *; subst h1 h0.
  - exists (calls ++ [Close true]). split.
    + now rewrite <- !app_assoc.
    + apply Forall_app. split; [exact F|]. repeat constructor.
  - exists calls. split; [now rewrite <- !app_assoc | exact F].
  - exists calls. split; [now rewrite <- !app_assoc | exact F].
Qed.

(** No call of [run_script] is a [sendline], whatever the script. *)
Lemma run_script_never_sends (self : TestCase.t) (command : string)
  (h : list call) :
  exists calls,
    snd (TestCase.run_script w self command h) = h ++ calls
    /\ Forall (fun c => forall s, c <> Sendline s) calls.
Proof.
  destruct (run_script_calls self command h) as [calls [E F]].
  exists (Spawn command :: Setecho false :: calls). split; [exact E|].
  repeat (constructor; [discriminate|]).
  eapply Forall_impl; [|exact F].
  intros c Hc s ->. exact Hc.
Qed.

(** The loop stops at the first expect action that raises: it closes the
    process by force and records the error of the exception. *)
Lemma replay_stops (pre post : list Action.t) (a : Action.t)
  (h h1 : list call) (errors : list string) (r : ExpectResult) :
  Action.type_ a = EXPECT ->
  TestCase.replay w pre [] h = (Some (Exhausted, errors), h1) ->
  expect_result w (h1 ++ [Expect (Action.data a) (Action.timeout a)]) = Some r ->
  r <> Matched ->
  TestCase.replay w (pre ++ a :: post) [] h
  = (Some (Break,
           [match r with
            | RaisesTIMEOUT => "Timeout exceeded."
            | _ => "Expected output not received."
            end]),
     h1 ++ [Expect (Action.data a) (Action.timeout a); Close true]).
Proof.
  intros Ha Hpre Hr Hne.
  rewrite replay_app, Hpre.
  apply replay_exhausted in Hpre. subst errors.
  simpl. rewrite Ha. simpl.
  unfold bind, expect, do_call, ret. rewrite Hr.
  destruct r; [congruence| |]; now rewrite <- app_assoc.
Qed.

(** C1, at the scripts made of one send action: [run_script] spawns the
    command, turns the echo off and closes the process.  The data of the
    send action is not written: no [sendline] call is made, since the test
    [action == ActionType.SEND] never holds. *)
Theorem send_action_is_not_written (name command data : string)
  (action_timeout timeout returns points : option Z) (blocker : bool)
  (h : list call) :
  let self :=
    one_action_case name command (Action.init SEND data action_timeout)
      timeout returns points blocker in
  let h' := h ++ [Spawn command; Setecho false; Close true] in
  TestCase.run_script w self command h = (Some (exitstatus w h', []), h').
Proof.
  intros self h'. subst self h'.
  unfold TestCase.run_script, bind, do_call, get_exitstatus, ret. simpl.
  now rewrite <- !app_assoc.
Qed.

(** C2, as the code has it: an expect action that is reached is waited for
    with the action's own timeout, whatever the timeout of the case, and
    when this wait raises [pexpect.TIMEOUT] the process is closed by force,
    no later action is replayed and the error list is exactly
    ["Timeout exceeded."]. *)
Theorem expect_timeout_aborts (self : TestCase.t) (command : string)
  (pre post : list Action.t) (a : Action.t) (h h1 : list call)
  (errors : list string) :
  TestCase.script self = pre ++ a :: post ->
  Action.type_ a = EXPECT ->
  TestCase.replay w pre [] (h ++ [Spawn command; Setecho false])
  = (Some (Exhausted, errors), h1) ->
  expect_result w (h1 ++ [Expect (Action.data a) (Action.timeout a)])
  = Some RaisesTIMEOUT ->
  let h2 := h1 ++ [Expect (Action.data a) (Action.timeout a); Close true] in
  TestCase.run_script w self command h
  = (Some (exitstatus w h2, ["Timeout exceeded."]), h2).
Proof.
  intros Hs Ha Hpre Hr h2. subst h2.
  apply run_script_break. rewrite Hs.
  now rewrite (replay_stops pre post a _ h1 errors RaisesTIMEOUT).
Qed.

(** C3: when the wait of an expect action that is reached raises
    [pexpect.EOF], the process is closed by force, no later action is
    replayed and the error list is exactly
    ["Expected output not received."]. *)
Theorem expect_eof_aborts (self : TestCase.t) (command : string)
  (pre post : list Action.t) (a : Action.t) (h h1 : list call)
  (errors : list string) :
  TestCase.script self = pre ++ a :: post ->
  Action.type_ a = EXPECT ->
  TestCase.replay w pre [] (h ++ [Spawn command; Setecho false])
  = (Some (Exhausted, errors), h1) ->
  expect_result w (h1 ++ [Expect (Action.data a) (Action.timeout a)])
  = Some RaisesEOF ->
  let h2 := h1 ++ [Expect (Action.data a) (Action.timeout a); Close true] in
  TestCase.run_script w self command h
  = (Some (exitstatus w h2, ["Expected output not received."]), h2).
Proof.
  intros Hs Ha Hpre Hr h2. subst h2.
  apply run_script_break. rewrite Hs.
  now rewrite (replay_stops pre post a _ h1 errors RaisesEOF).
Qed.

(** [exit_status != self.returns], as a proposition. *)
Lemma status_differs_spec (status : option Z) (expected : Z) :
  TestCase.status_differs status expected = true <-> status <> Some expected.
Proof.
  destruct status as [s|]; simpl.
  - rewrite negb_true_iff, Z.eqb_neq. split; congruence.
  - split; [discriminate | reflexivity].
Qed.

(** C4: [run] adds "Incorrect exit status." to the errors of the replay if
    and only if [returns] is set and the exit status of the replay differs
    from it; otherwise the errors are those of the replay, none of which is
    this one. *)
Theorem incorrect_exit_status_iff (self : TestCase.t) (jailed : bool)
  (h h' : list call) (status : option Z) (errors : list string) :
  TestCase.run_script w self
    (TestCase.jail_prefix w jailed ++ TestCase.command self)%string h
  = (Some (status, errors), h') ->
  exists r,
    TestCase.run w self jailed h = (Some r, h')
    /\ ~ In "Incorrect exit status." errors
    /\ (In "Incorrect exit status." (Report.errors r) <->
        exists expected,
          TestCase.returns self = Some expected /\ status <> Some expected)
    /\ ((exists expected,
          TestCase.returns self = Some expected /\ status <> Some expected) ->
        Report.errors r = errors ++ ["Incorrect exit status."])
    /\ (~ (exists expected,
          TestCase.returns self = Some expected /\ status <> Some expected) ->
        Report.errors r = errors).
Proof.
  intros H.
  assert (Hno : ~ In "Incorrect exit status." errors).
  { destruct (run_script_errors w _ _ _ _ _ _ H) as [E|[E|E]]; subst errors;
      simpl; intuition discriminate. }
  unfold TestCase.run, bind, ret. rewrite H. simpl.
  eexists. split; [reflexivity|]. split; [exact Hno|]. simpl.
  destruct (TestCase.returns self) as [expected|].
  - destruct (TestCase.status_differs status expected) eqn:D.
    + assert (Hd : status <> Some expected) by now apply status_differs_spec.
      split; [split | split].
      * intros _. now exists expected.
      * intros _. apply in_or_app. right. now left.
      * reflexivity.
      * intros N. exfalso. apply N. now exists expected.
    + assert (Hd : ~ status <> Some expected).
      { rewrite <- status_differs_spec. congruence. }
      split; [split | split].
      * intros I. contradiction.
      * intros [e [E1 E2]]. inversion E1. subst e. contradiction.
      * intros [e [E1 E2]]. inversion E1. subst e. contradiction.
      * reflexivity.
  - split; [split | split].
    + intros I. contradiction.
    + intros [e [E1 _]]. discriminate.
    + intros [e [E1 _]]. discriminate.
    + reflexivity.
Qed.

End ReplayClaims.

(** *** Sample runs *)

Lemma expect_timeout_aborts_witness :
  expect_result shell
    [Spawn "cat"; Setecho false; Expect (Str "x") (Some 1)]
  = Some RaisesTIMEOUT
  /\ TestCase.run_script shell case_slow_bounded "cat" []
     = (Some (None, ["Timeout exceeded."]),
        [Spawn "cat"; Setecho false; Expect (Str "x") (Some 1); Close true]).
Proof.
  split; [reflexivity|].
  apply (expect_timeout_aborts shell case_slow_bounded "cat"
           [] [] (Action.init EXPECT "x" (Some 1)) []
           [Spawn "cat"; Setecho false] []); reflexivity.
Defined.

(** C2 as worded fails: the case asks for a timeout of one second, its
    expect action has none of its own, and [cat] stays silent.  A wait
    bounded by the timeout of the case would time out; the code passes no
    bound, the wait never returns, no error is recorded and the process is
    not closed. *)
Lemma case_timeout_is_not_applied :
  effective_timeout_spec case_slow (Action.init EXPECT "x" None) = Some 1
  /\ expect_result shell
       [Spawn "cat"; Setecho false; Expect (Str "x") (Some 1)]
     = Some RaisesTIMEOUT
  /\ TestCase.run_script shell case_slow "cat" []
     = (None, [Spawn "cat"; Setecho false; Expect (Str "x") None]).
Proof. repeat split. Qed.

Lemma expect_eof_aborts_witness :
  TestCase.replay shell [Action.init EXPECT "hi" None] []
    [Spawn "echo hi; exit 3"; Setecho false]
  = (Some (Exhausted, []),
     [Spawn "echo hi; exit 3"; Setecho false; Expect (Str "hi") None])
  /\ TestCase.run_script shell case_eof "echo hi; exit 3" []
     = (Some (Some 3, ["Expected output not received."]),
        [Spawn "echo hi; exit 3"; Setecho false; Expect (Str "hi") None;
         Expect (Str "bye") None; Close true]).
Proof.
  split; [reflexivity|].
  apply (expect_eof_aborts shell case_eof "echo hi; exit 3"
           [Action.init EXPECT "hi" None] [Action.init SEND "more" None]
           (Action.init EXPECT "bye" None) []
           [Spawn "echo hi; exit 3"; Setecho false; Expect (Str "hi") None]
           []); reflexivity.
Defined.

Lemma incorrect_exit_status_iff_witness :
  TestCase.run_script shell case_status "echo hi; exit 3" []
  = (Some (Some 3, []),
     [Spawn "echo hi; exit 3"; Setecho false; Expect (Str "hi") None;
      Close true])
  /\ exists r,
       TestCase.run shell case_status false []
       = (Some r,
          [Spawn "echo hi; exit 3"; Setecho false; Expect (Str "hi") None;
           Close true])
       /\ ~ In "Incorrect exit status." []
       /\ (In "Incorrect exit status." (Report.errors r) <->
           exists expected,
             TestCase.returns case_status = Some expected
             /\ Some 3 <> Some expected)
       /\ ((exists expected,
             TestCase.returns case_status = Some expected
             /\ Some 3 <> Some expected) ->
           Report.errors r = [] ++ ["Incorrect exit status."])
       /\ (~ (exists expected,
             TestCase.returns case_status = Some expected
             /\ Some 3 <> Some expected) ->
           Report.errors r = []).
Proof.
  split; [reflexivity|].
  apply (incorrect_exit_status_iff shell case_status false []); reflexivity.
Defined.

(** The scenario of the specification: [echo hi; exit 3] with an expected
    status of 0. *)
Example case_status_run :
  fst (TestCase.run shell case_status false [])
  = Some {| Report.errors := ["Incorrect exit status."];
            Report.points := None |}.
Proof. reflexivity. Qed.

(** ** The end-of-stream marker *)

(** C8, as the code has it: a data string other than "_EOF_" is kept as
    the pattern of the action and is not the end-of-stream marker. *)
Theorem literal_pattern_is_kept (type_ : ActionType) (data : string)
  (timeout : option Z) :
  data <> "_EOF_" ->
  Action.data (Action.init type_ data timeout) = Str data
  /\ Action.data (Action.init type_ data timeout) <> pexpect_EOF.
Proof.
  intros H. unfold Action.init. simpl.
  apply String.eqb_neq in H. rewrite H. simpl. split; [reflexivity | discriminate].
Qed.

Lemma literal_pattern_is_kept_witness :
  "Enter a number: " <> "_EOF_"
  /\ Action.data (Action.init EXPECT "Enter a number: " None)
     = Str "Enter a number: "
  /\ Action.data (Action.init EXPECT "Enter a number: " None) <> pexpect_EOF.
Proof.
  split; [discriminate|].
  apply (literal_pattern_is_kept EXPECT "Enter a number: " None). discriminate.
Defined.

(** C8 as worded fails at the string "_EOF_": the action built from it
    carries the end-of-stream marker, not the string. *)
Lemma eof_string_becomes_marker :
  Action.data (Action.init EXPECT "_EOF_" None) = pexpect_EOF.
Proof. reflexivity. Qed.

(** ** Lists *)

Lemma In_firstn {A : Type} (n : nat) (l : list A) (x : A) :
  In x (firstn n l) -> In x l.
Proof.
  intros H. rewrite <- (firstn_skipn n l). apply in_or_app. now left.
Qed.

Lemma NoDup_app_disjoint {A : Type} (l l' : list A) (x : A) :
  NoDup (l ++ l') -> In x l -> ~ In x l'.
Proof.
  induction l as [|a l IH]; simpl; [contradiction|].
  intros H [->|I] Hx.
  - inversion H as [|? ? N _]. apply N. apply in_or_app. now right.
  - inversion H as [|? ? _ H']. exact (IH H' I Hx).
Qed.

Lemma NoDup_firstn {A : Type} (n : nat) (l : list A) :
  NoDup l -> NoDup (firstn n l).
Proof.
  intros H. rewrite <- (firstn_skipn n l) in H.
  eapply NoDup_app_remove_r. exact H.
Qed.

(** ** Ordered dictionaries *)

Section OrderedDictFacts.

Context {V : Type}.

Implicit Types (d : OrderedDict.t V) (k : string) (v : V).

Lemma get_set_same k v d :
  OrderedDict.get k (OrderedDict.set k v d) = Some v.
Proof.
  induction d as [|[k' v'] d IH]; simpl.
  - now rewrite String.eqb_refl.
  - destruct (String.eqb k k') eqn:E; simpl; rewrite E; auto.
Qed.

Lemma get_set_other k k' v d :
  k <> k' ->
  OrderedDict.get k' (OrderedDict.set k v d) = OrderedDict.get k' d.
Proof.
  intros N. induction d as [|[k0 v0] d IH]; simpl.
  - apply String.eqb_neq in N. rewrite String.eqb_sym in N. now rewrite N.
  - destruct (String.eqb_spec k k0) as [->|N0]; simpl.
    + destruct (String.eqb_spec k' k0) as [->|N1]; [congruence | reflexivity].
    + now rewrite IH.
Qed.

Lemma get_In k v d :
  OrderedDict.get k d = Some v -> In (k, v) d.
Proof.
  induction d as [|[k0 v0] d IH]; simpl.
  - discriminate.
  - destruct (String.eqb_spec k k0) as [->|N].
    + intros H. inversion H. now left.
    + intros H. right. auto.
Qed.

Lemma In_get k v d :
  NoDup (OrderedDict.keys d) -> In (k, v) d -> OrderedDict.get k d = Some v.
Proof.
  induction d as [|[k0 v0] d IH]; simpl.
  - contradiction.
  - intros H [E|I].
    + inversion E. now rewrite String.eqb_refl.
    + inversion H as [|? ? N H']. subst.
      destruct (String.eqb_spec k k0) as [->|_]; [|auto].
      exfalso. apply N. change k0 with (fst (k0, v)). now apply in_map.
Qed.

(** A new key goes last. *)
Lemma set_new k v d :
  ~ In k (OrderedDict.keys d) -> OrderedDict.set k v d = d ++ [(k, v)].
Proof.
  induction d as [|[k0 v0] d IH]; simpl.
  - reflexivity.
  - destruct (String.eqb_spec k k0) as [->|N]; [intros H; exfalso; auto|].
    intros H. rewrite IH; tauto.
Qed.

(** An existing key keeps its place. *)
Lemma set_keys_old k v d :
  In k (OrderedDict.keys d) ->
  OrderedDict.keys (OrderedDict.set k v d) = OrderedDict.keys d.
Proof.
  induction d as [|[k0 v0] d IH]; simpl.
  - contradiction.
  - destruct (String.eqb_spec k k0) as [->|N]; simpl; [reflexivity|].
    intros [E|I]; [congruence|]. f_equal. auto.
Qed.

Lemma set_keys_new k v d :
  ~ In k (OrderedDict.keys d) ->
  OrderedDict.keys (OrderedDict.set k v d) = OrderedDict.keys d ++ [k].
Proof.
  intros H. rewrite set_new by exact H.
  unfold OrderedDict.keys. now rewrite map_app.
Qed.

Lemma set_keys_In k k' v d :
  In k' (OrderedDict.keys (OrderedDict.set k v d)) <->
  k' = k \/ In k' (OrderedDict.keys d).
Proof.
  destruct (in_dec string_dec k (OrderedDict.keys d)) as [I|N].
  - rewrite set_keys_old by exact I. split; [tauto|].
    intros [->|H]; assumption.
  - rewrite set_keys_new by exact N. rewrite in_app_iff. simpl.
    split; [intros [H|[H|[]]]; auto | intros [H|H]; auto].
Qed.

Lemma set_set k v v' d :
  OrderedDict.set k v' (OrderedDict.set k v d) = OrderedDict.set k v' d.
Proof.
  induction d as [|[k0 v0] d IH]; simpl.
  - now rewrite String.eqb_refl.
  - destruct (String.eqb k k0) eqn:E; simpl; rewrite E; [reflexivity|].
    now rewrite IH.
Qed.

(** The keys of a dictionary stay distinct. *)
Lemma set_NoDup k v d :
  NoDup (OrderedDict.keys d) ->
  NoDup (OrderedDict.keys (OrderedDict.set k v d)).
Proof.
  intros H.
  destruct (in_dec string_dec k (OrderedDict.keys d)) as [I|N].
  - now rewrite set_keys_old.
  - rewrite set_keys_new by exact N.
    apply NoDup_app; [exact H | repeat constructor; auto | ].
    intros x Hx [->|[]]. contradiction.
Qed.

End OrderedDictFacts.

(** ** Building a suite *)

Lemma add_cases_points (s : Calico.t) (cases : list TestCase.t) :
  Calico.points (Calico.add_cases s cases) = Calico.points s + sum_points cases.
Proof.
  revert s. unfold Calico.add_cases, sum_points.
  induction cases as [|c cases IH]; intros s; simpl.
  - lia.
  - rewrite IH. simpl. unfold points_or_zero. lia.
Qed.

Lemma add_cases_NoDup (s : Calico.t) (cases : list TestCase.t) :
  NoDup (OrderedDict.keys (Calico.items s)) ->
  NoDup (OrderedDict.keys (Calico.items (Calico.add_cases s cases))).
Proof.
  revert s. unfold Calico.add_cases.
  induction cases as [|c cases IH]; intros s H; simpl.
  - exact H.
  - apply IH. simpl. now apply set_NoDup.
Qed.

Lemma add_cases_keeps_keys (s : Calico.t) (cases : list TestCase.t) (k : string) :
  In k (OrderedDict.keys (Calico.items s)) ->
  In k (OrderedDict.keys (Calico.items (Calico.add_cases s cases))).
Proof.
  revert s. unfold Calico.add_cases.
  induction cases as [|c cases IH]; intros s H; simpl.
  - exact H.
  - apply IH. simpl. apply set_keys_In. now right.
Qed.

(** [Calico.run] hands the suite back as it received it. *)
Lemma run_keeps_suite (w : World) (s s' : Calico.t) (quiet : bool)
  (h h' : list call) (report : OrderedDict.t ReportValue) :
  Calico.run w s quiet h = (Some (s', report), h') -> s' = s.
Proof.
  unfold Calico.run, bind, do_call, ret.
  destruct (Calico.run_cases w quiet (Calico.items s) OrderedDict.empty 0
              (h ++ [Setenv "TERM" "dumb"])) as [[[[ex rep] e]|] h1];
    [|discriminate].
  intros H. now inversion H.
Qed.

(** C7: after any sequence of [add_case] calls on a new suite, the points
    of the suite are the sum of the points of the added cases, a case
    without points counting for 0; each [add_case] adds the points of its
    case, and a run that returns leaves the suite, and so its points, as
    they were, whatever the outcome of the cases. *)
Theorem total_points_is_sum_of_added (w : World) (cases : list TestCase.t)
  (quiet : bool) (h : list call) :
  Calico.points (Calico.add_cases Calico.init cases) = sum_points cases
  /\ (forall case,
        Calico.points (Calico.add_case (Calico.add_cases Calico.init cases) case)
        = sum_points cases + points_or_zero case)
  /\ (forall self' report h',
        Calico.run w (Calico.add_cases Calico.init cases) quiet h
        = (Some (self', report), h') ->
        self' = Calico.add_cases Calico.init cases
        /\ Calico.points self' = sum_points cases).
Proof.
  assert (E : Calico.points (Calico.add_cases Calico.init cases) = sum_points cases).
  { rewrite add_cases_points. simpl. lia. }
  split; [exact E|]. split.
  - intros case. simpl. rewrite E. reflexivity.
  - intros self' report h' H. apply run_keeps_suite in H. subst self'.
    split; [reflexivity | exact E].
Qed.

(** C9: adding a case under the name of a case added before replaces the
    earlier case where it stood: the name then leads to the new case, the
    names of the suite and their order are unchanged and all other entries
    are kept; the points of the suite count both cases. *)
Theorem duplicate_name_overwrites_and_counts_twice
  (before between : list TestCase.t) (old new : TestCase.t) :
  TestCase.name new = TestCase.name old ->
  let s0 := Calico.add_cases Calico.init before in
  let s1 := Calico.add_cases (Calico.add_case s0 old) between in
  let s2 := Calico.add_case s1 new in
  In (TestCase.name old) (OrderedDict.keys (Calico.items s1))
  /\ OrderedDict.get (TestCase.name old) (Calico.items s2) = Some new
  /\ OrderedDict.keys (Calico.items s2) = OrderedDict.keys (Calico.items s1)
  /\ NoDup (OrderedDict.keys (Calico.items s2))
  /\ (forall k, k <> TestCase.name old ->
        OrderedDict.get k (Calico.items s2) = OrderedDict.get k (Calico.items s1))
  /\ Calico.points s2
     = sum_points before + points_or_zero old + sum_points between
       + points_or_zero new.
Proof.
  intros Hname s0 s1 s2.
  assert (Hin : In (TestCase.name old) (OrderedDict.keys (Calico.items s1))).
  { subst s1. apply add_cases_keeps_keys. simpl. apply set_keys_In. now left. }
  assert (Hnd : NoDup (OrderedDict.keys (Calico.items s1))).
  { subst s1 s0. apply add_cases_NoDup. simpl. apply set_NoDup.
    apply add_cases_NoDup. constructor. }
  split; [exact Hin|].
  subst s2. simpl. rewrite Hname.
  split; [apply get_set_same|].
  split; [now apply set_keys_old|].
  split; [now apply set_NoDup|].
  split; [intros k Hk; now apply get_set_other|].
  subst s1 s0. rewrite !add_cases_points. simpl.
  rewrite add_cases_points. simpl. unfold points_or_zero. lia.
Qed.

(** ** The processes a case spawns *)

Lemma spawned_app (h h' : list call) :
  spawned (h ++ h') = spawned h ++ spawned h'.
Proof.
  induction h as [|c h IH]; simpl; [reflexivity|].
  destruct c; simpl; now rewrite IH.
Qed.

Lemma spawned_expect_or_close (calls : list call) :
  Forall expect_or_close calls -> spawned calls = [].
Proof.
  induction 1 as [|c calls Hc _ IH]; simpl; [reflexivity|].
  destruct c; simpl in *; try contradiction; exact IH.
Qed.

(** A run of a case spawns one process, that of its command. *)
Lemma run_spawned (w : World) (t : TestCase.t) (jailed : bool) (h : list call) :
  spawned (snd (TestCase.run w t jailed h))
  = spawned h ++ [(TestCase.jail_prefix w jailed ++ TestCase.command t)%string].
Proof.
  unfold TestCase.run, bind, ret.
  destruct (run_script_calls w t
              (TestCase.jail_prefix w jailed ++ TestCase.command t)%string h)
    as [calls [E F]].
  destruct (TestCase.run_script w t _ h) as [[[status errors]|] h1];
    simpl in *; subst h1;
    rewrite spawned_app; simpl; now rewrite (spawned_expect_or_close calls F).
Qed.

(** ** Running a suite *)

Section SuiteFacts.

Variable w : World.
Variable quiet : bool.

(** [test.run] returns a report without ["points"]. *)
Lemma run_no_points (t : TestCase.t) (jailed : bool) (h h' : list call)
  (r : Report.t) :
  TestCase.run w t jailed h = (Some r, h') -> Report.points r = None.
Proof.
  unfold TestCase.run, bind, ret.
  destruct (TestCase.run_script w t _ h) as [[[status errors]|] h1];
    [|discriminate].
  intros H. inversion H. reflexivity.
Qed.

(** One iteration of the loop of [Calico.run]. *)
Lemma run_cases_cons (k : string) (t : TestCase.t)
  (rest : list (string * TestCase.t)) (rep : OrderedDict.t ReportValue)
  (e : Z) (h : list call) :
  Calico.run_cases w quiet ((k, t) :: rest) rep e h =
  match TestCase.run w t (SUPPORTS_JAIL w && String.prefix "case_" k) h with
  | (Some r, h1) =>
      let rep1 := OrderedDict.set k (CaseReport (graded t r)) rep in
      let e1 := e + awarded (graded t r) in
      if TestCase.blocker t && negb (Nat.eqb (List.length (Report.errors r)) 0)
      then (Some (Break, rep1, e1), h1)
      else Calico.run_cases w quiet rest rep1 e1 h1
  | (None, h1) => (None, h1)
  end.
Proof.
  simpl. unfold bind at 1.
  destruct (TestCase.run w t (SUPPORTS_JAIL w && String.prefix "case_" k) h)
    as [[r|] h1] eqn:Hrun; [|reflexivity].
  unfold graded, awarded.
  destruct (TestCase.points t) as [p|]; simpl.
  - rewrite set_set.
    now destruct (TestCase.blocker t && negb (Nat.eqb (List.length (Report.errors r)) 0)).
  - rewrite (run_no_points _ _ _ _ _ Hrun), Z.add_0_r.
    now destruct (TestCase.blocker t && negb (Nat.eqb (List.length (Report.errors r)) 0)).
Qed.

Lemma run_cases_app (pre rest : list (string * TestCase.t))
  (rep : OrderedDict.t ReportValue) (e : Z) (h : list call) :
  Calico.run_cases w quiet (pre ++ rest) rep e h =
  match Calico.run_cases w quiet pre rep e h with
  | (Some (Exhausted, rep', e'), h') => Calico.run_cases w quiet rest rep' e' h'
  | stopped => stopped
  end.
Proof.
  revert rep e h.
  induction pre as [|[k t] pre IH]; intros rep e h.
  - reflexivity.
  - rewrite <- app_comm_cons, !run_cases_cons.
    destruct (TestCase.run w t (SUPPORTS_JAIL w && String.prefix "case_" k) h)
      as [[r|] h1]; [|reflexivity].
    cbv zeta.
    destruct (TestCase.blocker t && negb (Nat.eqb (List.length (Report.errors r)) 0));
      [reflexivity | apply IH].
Qed.

(** The report that an iteration leaves carries all or nothing. *)
Lemma graded_all_or_nothing (t : TestCase.t) (r : Report.t) :
  Report.points r = None ->
  points_all_or_nothing t (graded t r)
  /\ Report.errors (graded t r) = Report.errors r.
Proof.
  intros H. unfold points_all_or_nothing, graded.
  destruct (TestCase.points t) as [p|]; simpl; [|auto].
  split; [|reflexivity]. now destruct (Report.errors r).
Qed.

(** The loop invariant.  Started on cases with distinct names, none of
    them in the report yet, the loop adds to the report, in order, one
    entry for each case of a prefix of the cases (all of them unless it
    breaks); each entry is the report of its case, carrying all or nothing
    of the points of the case, and the earned points grow by the sum of
    the points these reports carry. *)
Lemma run_cases_inv (cases : list (string * TestCase.t)) :
  forall (rep : OrderedDict.t ReportValue) (e : Z) (h : list call)
         (ex : LoopExit) (rep' : OrderedDict.t ReportValue) (e' : Z)
         (h' : list call),
  NoDup (OrderedDict.keys cases) ->
  (forall k, In k (OrderedDict.keys cases) -> ~ In k (OrderedDict.keys rep)) ->
  Calico.run_cases w quiet cases rep e h = (Some (ex, rep', e'), h') ->
  exists (new : OrderedDict.t ReportValue) (n : nat),
    rep' = rep ++ new
    /\ OrderedDict.keys new = firstn n (OrderedDict.keys cases)
    /\ e' = e + sum_awarded new
    /\ (forall k v, In (k, v) new ->
          exists t r, OrderedDict.get k cases = Some t /\ v = CaseReport r
                      /\ points_all_or_nothing t r)
    /\ (ex = Exhausted -> n = List.length cases)
    /\ spawned h' = spawned h ++ map (command_line w) (firstn n cases).
Proof.
  induction cases as [|[k t] cases IH]; intros rep e h ex rep' e' h' Hnd Hdis H.
  - simpl in H. unfold ret in H. inversion H. subst.
    exists [], 0%nat. rewrite app_nil_r. simpl.
    split; [reflexivity|]. split; [reflexivity|]. split; [lia|].
    split; [intros k v [] |]. split; [reflexivity | now rewrite app_nil_r].
  - rewrite run_cases_cons in H.
    destruct (TestCase.run w t (SUPPORTS_JAIL w && String.prefix "case_" k) h)
      as [[r|] h1] eqn:Hrun; [|discriminate].
    cbv zeta in H.
    assert (Hk : ~ In k (OrderedDict.keys rep)) by (apply Hdis; now left).
    rewrite (set_new k _ rep Hk) in H.
    destruct (graded_all_or_nothing t r (run_no_points _ _ _ _ _ Hrun)) as [Hg _].
    assert (Hsp : spawned h1 = spawned h ++ [command_line w (k, t)]).
    { pose proof (run_spawned w t (SUPPORTS_JAIL w && String.prefix "case_" k) h) as S.
      now rewrite Hrun in S. }
    simpl in Hnd. inversion Hnd as [|k0 ks Hnk Hnd']. subst k0 ks.
    destruct (TestCase.blocker t && negb (Nat.eqb (List.length (Report.errors r)) 0)).
    + inversion H. subst.
      exists [(k, CaseReport (graded t r))], 1%nat. simpl.
      split; [reflexivity|]. split; [now destruct cases|].
      split; [lia|]. split; [|split; [discriminate | exact Hsp]].
      intros k0 v [E|[]]. inversion E. subst k0 v.
      exists t, (graded t r). now rewrite String.eqb_refl.
    + apply IH in H; [|exact Hnd'|].
      * destruct H as [new [n [E1 [E2 [E3 [E4 [E5 E6]]]]]]].
        exists ((k, CaseReport (graded t r)) :: new), (S n). simpl.
        split; [now rewrite E1, <- app_assoc|].
        split; [now rewrite E2|]. split; [lia|]. split.
        -- intros k0 v [E|I].
           ++ inversion E. subst k0 v.
              exists t, (graded t r). now rewrite String.eqb_refl.
           ++ destruct (E4 k0 v I) as [t0 [r0 [G1 [G2 G3]]]].
              exists t0, r0. split; [|auto].
              destruct (String.eqb_spec k0 k) as [->|N]; [|exact G1].
              exfalso. apply Hnk.
              assert (Hin : In k (OrderedDict.keys new)).
              { unfold OrderedDict.keys.
                change k with (fst (k, v)). now apply in_map. }
              rewrite E2 in Hin. now apply In_firstn in Hin.
        -- split; [intros Hex; now rewrite (E5 Hex)|].
           now rewrite E6, Hsp, <- app_assoc.
      * intros k0 Hk0. unfold OrderedDict.keys. rewrite map_app, in_app_iff.
        simpl. intros [I|[E|[]]].
        -- apply (Hdis k0); [now right | exact I].
        -- subst k0. contradiction.
Qed.

End SuiteFacts.

Section SuiteClaims.

Variable w : World.
Variable quiet : bool.

(** [Calico.run], once the loop is done. *)
Lemma run_unfold (s : Calico.t) (h : list call) :
  Calico.run w s quiet h =
  match Calico.run_cases w quiet (Calico.items s) [] 0
          (h ++ [Setenv "TERM" "dumb"]) with
  | (Some (_, rep, earned), h') =>
      (Some (s, OrderedDict.set "points" (Number earned) rep), h')
  | (None, h') => (None, h')
  end.
Proof.
  unfold Calico.run, bind, do_call, ret, OrderedDict.empty.
  now destruct (Calico.run_cases w quiet (Calico.items s) [] 0
                  (h ++ [Setenv "TERM" "dumb"])) as [[[[ex rep] e]|] h1].
Qed.

(** A loop that runs to its end on a new report has run every case. *)
Lemma run_cases_exhausted (cases : list (string * TestCase.t))
  (e e' : Z) (h h' : list call) (rep : OrderedDict.t ReportValue) :
  NoDup (OrderedDict.keys cases) ->
  Calico.run_cases w quiet cases [] e h = (Some (Exhausted, rep, e'), h') ->
  OrderedDict.keys rep = OrderedDict.keys cases
  /\ e' = e + sum_awarded rep
  /\ spawned h' = spawned h ++ map (command_line w) cases.
Proof.
  intros Hnd H.
  apply run_cases_inv in H; [|exact Hnd|intros k _ []].
  destruct H as [new [n [E1 [E2 [E3 [_ [E5 E6]]]]]]].
  simpl in E1. subst rep. rewrite (E5 eq_refl) in *.
  rewrite firstn_all in E6.
  unfold OrderedDict.keys in E2 at 2.
  rewrite <- (length_map fst cases), firstn_all in E2.
  auto.
Qed.

(** Distinct names, around one of them. *)
Lemma NoDup_keys_split {V : Type} (pre post : OrderedDict.t V) (k : string) (v : V) :
  NoDup (OrderedDict.keys (pre ++ (k, v) :: post)) ->
  NoDup (OrderedDict.keys pre)
  /\ ~ In k (OrderedDict.keys pre)
  /\ ~ In k (OrderedDict.keys post)
  /\ NoDup (OrderedDict.keys post)
  /\ (forall k', In k' (OrderedDict.keys post) -> ~ In k' (OrderedDict.keys pre)).
Proof.
  unfold OrderedDict.keys. rewrite map_app. simpl. intros H.
  pose proof (NoDup_remove_1 _ _ _ H) as H1.
  pose proof (NoDup_remove_2 _ _ _ H) as H2.
  rewrite in_app_iff in H2.
  split; [eapply NoDup_app_remove_r; exact H1|].
  split; [tauto|]. split; [tauto|].
  split; [eapply NoDup_app_remove_l; exact H1|].
  intros k' Hpost Hpre.
  exact (NoDup_app_disjoint _ _ k' H1 Hpre Hpost).
Qed.

(** C5, as the code has it: when a blocker that is reached fails, the run
    ends with the run of this case, so that no later case is run; the
    report has a key for every case up to and including the blocker, and
    none for a later case unless that case is named points, the key that
    every report has for the earned points. *)
Theorem failed_blocker_stops_suite (s : Calico.t)
  (pre post : list (string * TestCase.t)) (k : string) (t : TestCase.t)
  (rep1 : OrderedDict.t ReportValue) (e1 : Z) (h h1 h2 : list call)
  (r : Report.t) :
  NoDup (OrderedDict.keys (Calico.items s)) ->
  Calico.items s = pre ++ (k, t) :: post ->
  Calico.run_cases w quiet pre [] 0 (h ++ [Setenv "TERM" "dumb"])
  = (Some (Exhausted, rep1, e1), h1) ->
  TestCase.run w t (SUPPORTS_JAIL w && String.prefix "case_" k) h1
  = (Some r, h2) ->
  TestCase.blocker t = true ->
  Report.errors r <> [] ->
  exists final,
    Calico.run w s quiet h = (Some (s, final), h2)
    /\ spawned h2 = spawned h ++ map (command_line w) (pre ++ [(k, t)])
    /\ (forall k', In k' (OrderedDict.keys pre) \/ k' = k ->
          In k' (OrderedDict.keys final))
    /\ (forall k', In k' (OrderedDict.keys post) -> k' <> "points" ->
          ~ In k' (OrderedDict.keys final)).
Proof.
  intros Hnd Hitems Hpre Hrun Hblk Herr.
  rewrite Hitems in Hnd.
  destruct (NoDup_keys_split _ _ _ _ Hnd) as [Hnd1 [Hk1 [Hk2 [_ Hdis]]]].
  destruct (run_cases_exhausted _ _ _ _ _ _ Hnd1 Hpre) as [Hkeys [_ Hsp]].
  eexists. rewrite run_unfold, Hitems, run_cases_app, Hpre, run_cases_cons, Hrun.
  cbv zeta. rewrite Hblk.
  assert (Hfail : negb (Nat.eqb (List.length (Report.errors r)) 0) = true).
  { destruct (Report.errors r); [congruence | reflexivity]. }
  rewrite Hfail. simpl andb. cbv iota.
  split; [reflexivity|]. split.
  - pose proof (run_spawned w t (SUPPORTS_JAIL w && String.prefix "case_" k) h1) as S.
    rewrite Hrun in S. simpl in S. rewrite S, Hsp, spawned_app, map_app. simpl.
    now rewrite app_nil_r, <- app_assoc.
  - split.
    + intros k' Hk'. apply set_keys_In. right. apply set_keys_In.
      rewrite Hkeys. destruct Hk' as [Hk'|Hk']; auto.
    + intros k' Hpost Hne Hin.
      apply set_keys_In in Hin. destruct Hin as [Hin|Hin]; [contradiction|].
      apply set_keys_In in Hin. rewrite Hkeys in Hin.
      destruct Hin as [->|Hin]; [contradiction | exact (Hdis k' Hpost Hin)].
Qed.

(** A case that is reached and whose run returns has its report, graded,
    in the report the loop leaves. *)
Lemma reached_case_is_reported (pre post : list (string * TestCase.t))
  (k : string) (t : TestCase.t) (rep1 rep : OrderedDict.t ReportValue)
  (e1 earned : Z) (h0 h1 h2 h' : list call) (r : Report.t) (ex : LoopExit) :
  NoDup (OrderedDict.keys (pre ++ (k, t) :: post)) ->
  Calico.run_cases w quiet pre [] 0 h0 = (Some (Exhausted, rep1, e1), h1) ->
  TestCase.run w t (SUPPORTS_JAIL w && String.prefix "case_" k) h1
  = (Some r, h2) ->
  Calico.run_cases w quiet (pre ++ (k, t) :: post) [] 0 h0
  = (Some (ex, rep, earned), h') ->
  In (k, CaseReport (graded t r)) rep.
Proof.
  intros Hnd Hpre Hrun H.
  destruct (NoDup_keys_split _ _ _ _ Hnd) as [Hnd1 [Hk1 [Hk2 [Hnd2 Hdis]]]].
  destruct (run_cases_exhausted _ _ _ _ _ _ Hnd1 Hpre) as [Hkeys _].
  rewrite run_cases_app, Hpre, run_cases_cons, Hrun in H. cbv zeta in H.
  assert (Hin : In (k, CaseReport (graded t r))
                  (OrderedDict.set k (CaseReport (graded t r)) rep1)).
  { apply get_In, get_set_same. }
  destruct (TestCase.blocker t && negb (Nat.eqb (List.length (Report.errors r)) 0)).
  - inversion H. now subst.
  - apply run_cases_inv in H; [|exact Hnd2|].
    + destruct H as [new [n [E _]]]. subst rep. apply in_or_app. now left.
    + intros k' Hpost Hin'. apply set_keys_In in Hin'. rewrite Hkeys in Hin'.
      destruct Hin' as [->|Hin']; [contradiction | exact (Hdis k' Hpost Hin')].
Qed.

(** C6: in a run that returns, the cases that were run are the first
    cases of the suite, as many as the report has entries when the loop is
    left; the report of each carries all of the points of its case when it
    has no errors and 0 when it has some (and no points for a case that is
    not scored), and the ["points"] of the report of the suite is the sum of
    the points these reports carry. *)
Theorem scoring_is_all_or_nothing_and_summed (s self' : Calico.t)
  (final : OrderedDict.t ReportValue) (h h' : list call) :
  NoDup (OrderedDict.keys (Calico.items s)) ->
  Calico.run w s quiet h = (Some (self', final), h') ->
  exists ex rep earned n,
    Calico.run_cases w quiet (Calico.items s) [] 0
      (h ++ [Setenv "TERM" "dumb"])
    = (Some (ex, rep, earned), h')
    /\ final = OrderedDict.set "points" (Number earned) rep
    /\ OrderedDict.keys rep = firstn n (OrderedDict.keys (Calico.items s))
    /\ spawned h' = spawned h ++ map (command_line w) (firstn n (Calico.items s))
    /\ (forall k v, In (k, v) rep ->
          exists t r,
            OrderedDict.get k (Calico.items s) = Some t
            /\ v = CaseReport r
            /\ points_all_or_nothing t r
            /\ (k <> "points" -> OrderedDict.get k final = Some (CaseReport r)))
    /\ OrderedDict.get "points" final = Some (Number (sum_awarded rep)).
Proof.
  intros Hnd H. rewrite run_unfold in H.
  destruct (Calico.run_cases w quiet (Calico.items s) [] 0
              (h ++ [Setenv "TERM" "dumb"])) as [[[[ex rep] earned]|] h1] eqn:E;
    [|discriminate].
  inversion H. subst self' final h1. clear H.
  pose proof E as E'.
  apply run_cases_inv in E'; [|exact Hnd|intros k _ []].
  destruct E' as [new [n [E1 [E2 [E3 [E4 [_ E6]]]]]]].
  simpl in E1. subst new.
  exists ex, rep, earned, n.
  split; [reflexivity|]. split; [reflexivity|]. split; [exact E2|].
  split; [rewrite E6, spawned_app; simpl; now rewrite app_nil_r|].
  assert (Hndr : NoDup (OrderedDict.keys rep)).
  { rewrite E2. now apply NoDup_firstn. }
  split.
  - intros k v Hin. destruct (E4 k v Hin) as [t [r [G1 [G2 G3]]]].
    exists t, r. repeat (split; [assumption|]).
    intros Hk. rewrite get_set_other by congruence.
    subst v. now apply In_get.
  - rewrite get_set_same. repeat f_equal. lia.
Qed.

(** C10, as the code has it: for a suite with a case named points, a run
    that returns maps ["points"] to the number of earned points, the sum of
    the points carried by the reports of the cases that were run; no report
    of a case stands under ["points"] in the report, which is otherwise the
    report the loop left.  When the case is reached and its run returns,
    its report, graded, is in the report the loop leaves (and so counts
    in the earned points) before ["points"] is overwritten. *)
Theorem case_named_points_is_overwritten (s self' : Calico.t)
  (case : TestCase.t) (final : OrderedDict.t ReportValue) (h h' : list call) :
  NoDup (OrderedDict.keys (Calico.items s)) ->
  OrderedDict.get "points" (Calico.items s) = Some case ->
  Calico.run w s quiet h = (Some (self', final), h') ->
  exists ex rep earned,
    Calico.run_cases w quiet (Calico.items s) [] 0
      (h ++ [Setenv "TERM" "dumb"])
    = (Some (ex, rep, earned), h')
    /\ earned = sum_awarded rep
    /\ OrderedDict.get "points" final = Some (Number earned)
    /\ (forall r, ~ In ("points", CaseReport r) final)
    /\ (forall k, k <> "points" ->
          OrderedDict.get k final = OrderedDict.get k rep)
    /\ (forall pre post rep1 e1 h1 r h2,
          Calico.items s = pre ++ ("points", case) :: post ->
          Calico.run_cases w quiet pre [] 0 (h ++ [Setenv "TERM" "dumb"])
          = (Some (Exhausted, rep1, e1), h1) ->
          TestCase.run w case (SUPPORTS_JAIL w && String.prefix "case_" "points") h1
          = (Some r, h2) ->
          In ("points", CaseReport (graded case r)) rep
          /\ points_all_or_nothing case (graded case r)).
Proof.
  intros Hnd Hcase H. rewrite run_unfold in H.
  destruct (Calico.run_cases w quiet (Calico.items s) [] 0
              (h ++ [Setenv "TERM" "dumb"])) as [[[[ex rep] earned]|] h1] eqn:E;
    [|discriminate].
  inversion H. subst self' final h1. clear H.
  pose proof E as E'.
  apply run_cases_inv in E'; [|exact Hnd|intros k _ []].
  destruct E' as [new [n [E1 [E2 [E3 _]]]]].
  simpl in E1. subst new.
  exists ex, rep, earned.
  split; [reflexivity|]. split; [lia|]. split; [apply get_set_same|].
  assert (Hndr : NoDup (OrderedDict.keys rep)).
  { rewrite E2. now apply NoDup_firstn. }
  split.
  - intros r Hin.
    apply In_get in Hin; [|now apply set_NoDup].
    rewrite get_set_same in Hin. discriminate.
  - split.
    + intros k Hk. apply get_set_other. congruence.
    + intros pre post rep1 e1 h1 r h2 Hitems Hpre Hrun. split.
      * rewrite Hitems in Hnd, E.
        exact (reached_case_is_reported _ _ _ _ _ _ _ _ _ _ _ _ _ _ Hnd Hpre Hrun E).
      * apply graded_all_or_nothing. eapply run_no_points. exact Hrun.
Qed.

End SuiteClaims.

(** ** Runs that return *)

Section Returns.

Variable w : World.

(** Every [process.expect] call comes back. *)
Hypothesis expect_returns : forall h, expect_result w h <> None.

Lemma replay_returns (script : list Action.t) (errors : list string)
  (h : list call) :
  exists res h', TestCase.replay w script errors h = (Some res, h').
Proof.
  revert errors h.
  induction script as [|a script IH]; intros errors h; simpl.
  - now exists (Exhausted, errors), h.
  - destruct (ActionType_eqb (Action.type_ a) EXPECT).
    + unfold bind, expect, do_call, ret.
      destruct (expect_result w (h ++ [Expect (Action.data a) (Action.timeout a)]))
        as [[| |]|] eqn:E; simpl.
      * apply IH.
      * eexists _, _. reflexivity.
      * eexists _, _. reflexivity.
      * now apply expect_returns in E.
    + unfold Action.eq_ActionType. apply IH.
Qed.

Lemma run_returns (t : TestCase.t) (jailed : bool) (h : list call) :
  exists r h', TestCase.run w t jailed h = (Some r, h').
Proof.
  unfold TestCase.run, TestCase.run_script, bind, do_call, get_exitstatus, ret.
  simpl.
  destruct (replay_returns (TestCase.script t) []
              ((h ++ [Spawn (TestCase.jail_prefix w jailed ++ TestCase.command t)%string])
               ++ [Setecho false])) as [[ex errors] [h' E]].
  rewrite E. destruct ex; eexists _, _; reflexivity.
Qed.

Lemma run_cases_returns (quiet : bool) (cases : list (string * TestCase.t))
  (rep : OrderedDict.t ReportValue) (e : Z) (h : list call) :
  exists res h', Calico.run_cases w quiet cases rep e h = (Some res, h').
Proof.
  revert rep e h.
  induction cases as [|[k t] cases IH]; intros rep e h.
  - simpl. eexists _, _. reflexivity.
  - rewrite run_cases_cons.
    destruct (run_returns t (SUPPORTS_JAIL w && String.prefix "case_" k) h)
      as [r [h1 E]].
    rewrite E. cbv zeta.
    destruct (TestCase.blocker t && negb (Nat.eqb (List.length (Report.errors r)) 0)).
    + eexists _, _. reflexivity.
    + apply IH.
Qed.

(** When every wait comes back, the run of a suite returns a report. *)
Lemma suite_run_returns (s : Calico.t) (quiet : bool) (h : list call) :
  exists report h', Calico.run w s quiet h = (Some (s, report), h').
Proof.
  rewrite run_unfold.
  destruct (run_cases_returns quiet (Calico.items s) [] 0
              (h ++ [Setenv "TERM" "dumb"])) as [[[ex rep] e] [h' E]].
  rewrite E. eexists _, _. reflexivity.
Qed.

End Returns.

(** ** Sample runs of suites *)

(** The scenario of the specification: three cases worth 10, 20 and 30
    points, the second a blocker that fails. *)
Example suite_of_three_run :
  Calico.run shell suite_of_three true []
  = (Some (suite_of_three,
           [("first",
             CaseReport {| Report.errors := []; Report.points := Some 10 |});
            ("second",
             CaseReport {| Report.errors := ["Expected output not received."];
                           Report.points := Some 0 |});
            ("points", Number 10)]),
     [Setenv "TERM" "dumb";
      Spawn "echo hi; exit 3"; Setecho false; Expect (Str "hi") None; Close true;
      Spawn "true"; Setecho false; Expect (Str "ready") None; Close true]).
Proof. reflexivity. Qed.

Lemma failed_blocker_stops_suite_witness :
  TestCase.blocker case_second = true
  /\ exists final,
       Calico.run shell suite_of_three true []
       = (Some (suite_of_three, final),
          [Setenv "TERM" "dumb";
           Spawn "echo hi; exit 3"; Setecho false; Expect (Str "hi") None;
           Close true;
           Spawn "true"; Setecho false; Expect (Str "ready") None; Close true])
       /\ spawned
            [Setenv "TERM" "dumb";
             Spawn "echo hi; exit 3"; Setecho false; Expect (Str "hi") None;
             Close true;
             Spawn "true"; Setecho false; Expect (Str "ready") None; Close true]
          = spawned []
            ++ map (command_line shell)
                 ([("first", case_first)] ++ [("second", case_second)])
       /\ (forall k', In k' (OrderedDict.keys [("first", case_first)])
                      \/ k' = "second" ->
             In k' (OrderedDict.keys final))
       /\ (forall k', In k' (OrderedDict.keys [("third", case_third)]) ->
             k' <> "points" -> ~ In k' (OrderedDict.keys final)).
Proof.
  split; [reflexivity|].
  apply (failed_blocker_stops_suite shell true suite_of_three
           [("first", case_first)] [("third", case_third)]
           "second" case_second
           [("first",
             CaseReport {| Report.errors := []; Report.points := Some 10 |})]
           10 []
           [Setenv "TERM" "dumb";
            Spawn "echo hi; exit 3"; Setecho false; Expect (Str "hi") None;
            Close true]
           [Setenv "TERM" "dumb";
            Spawn "echo hi; exit 3"; Setecho false; Expect (Str "hi") None;
            Close true;
            Spawn "true"; Setecho false; Expect (Str "ready") None; Close true]
           {| Report.errors := ["Expected output not received."];
              Report.points := None |});
    [apply add_cases_NoDup; constructor
    | reflexivity | reflexivity | reflexivity | reflexivity | discriminate].
Defined.

(** C5 as worded fails: the blocker gate fails and the case after it is
    named points; this later case is not run, yet its name is a key of the
    report. *)
Lemma later_case_named_points_is_a_key :
  OrderedDict.keys (Calico.items suite_gate) = ["gate"; "points"]
  /\ TestCase.blocker case_gate = true
  /\ Calico.run shell suite_gate true []
     = (Some (suite_gate,
              [("gate",
                CaseReport {| Report.errors := ["Expected output not received."];
                              Report.points := None |});
               ("points", Number 0)]),
        [Setenv "TERM" "dumb";
         Spawn "true"; Setecho false; Expect (Str "ready") None; Close true])
  /\ In "points"
       (OrderedDict.keys
          [("gate",
            CaseReport {| Report.errors := ["Expected output not received."];
                          Report.points := None |});
           ("points", Number 0)]).
Proof.
  split; [reflexivity|]. split; [reflexivity|]. split; [reflexivity|].
  simpl. auto.
Qed.

Lemma scoring_is_all_or_nothing_and_summed_witness :
  exists ex rep earned n,
    Calico.run_cases shell true (Calico.items suite_of_three) [] 0
      ([] ++ [Setenv "TERM" "dumb"])
    = (Some (ex, rep, earned),
       [Setenv "TERM" "dumb";
        Spawn "echo hi; exit 3"; Setecho false; Expect (Str "hi") None;
        Close true;
        Spawn "true"; Setecho false; Expect (Str "ready") None; Close true])
    /\ [("first",
         CaseReport {| Report.errors := []; Report.points := Some 10 |});
        ("second",
         CaseReport {| Report.errors := ["Expected output not received."];
                       Report.points := Some 0 |});
        ("points", Number 10)]
       = OrderedDict.set "points" (Number earned) rep
    /\ OrderedDict.keys rep
       = firstn n (OrderedDict.keys (Calico.items suite_of_three))
    /\ spawned
         [Setenv "TERM" "dumb";
          Spawn "echo hi; exit 3"; Setecho false; Expect (Str "hi") None;
          Close true;
          Spawn "true"; Setecho false; Expect (Str "ready") None; Close true]
       = spawned []
         ++ map (command_line shell) (firstn n (Calico.items suite_of_three))
    /\ (forall k v, In (k, v) rep ->
          exists t r,
            OrderedDict.get k (Calico.items suite_of_three) = Some t
            /\ v = CaseReport r
            /\ points_all_or_nothing t r
            /\ (k <> "points" ->
                OrderedDict.get k
                  [("first",
                    CaseReport {| Report.errors := [];
                                  Report.points := Some 10 |});
                   ("second",
                    CaseReport
                      {| Report.errors := ["Expected output not received."];
                         Report.points := Some 0 |});
                   ("points", Number 10)]
                = Some (CaseReport r)))
    /\ OrderedDict.get "points"
         [("first",
           CaseReport {| Report.errors := []; Report.points := Some 10 |});
          ("second",
           CaseReport {| Report.errors := ["Expected output not received."];
                         Report.points := Some 0 |});
          ("points", Number 10)]
       = Some (Number (sum_awarded rep)).
Proof.
  apply (scoring_is_all_or_nothing_and_summed shell true
           suite_of_three suite_of_three);
    [apply add_cases_NoDup; constructor | reflexivity].
Defined.

Lemma total_points_is_sum_of_added_witness :
  Calico.points suite_of_three = 60
  /\ Calico.run shell suite_of_three true []
     = (Some (suite_of_three,
              [("first",
                CaseReport {| Report.errors := []; Report.points := Some 10 |});
               ("second",
                CaseReport {| Report.errors := ["Expected output not received."];
                              Report.points := Some 0 |});
               ("points", Number 10)]),
        [Setenv "TERM" "dumb";
         Spawn "echo hi; exit 3"; Setecho false; Expect (Str "hi") None;
         Close true;
         Spawn "true"; Setecho false; Expect (Str "ready") None; Close true])
  /\ suite_of_three
     = Calico.add_cases Calico.init [case_first; case_second; case_third]
  /\ Calico.points suite_of_three
     = sum_points [case_first; case_second; case_third].
Proof.
  split; [reflexivity|]. split; [reflexivity|].
  apply (proj2 (proj2 (total_points_is_sum_of_added shell
                         [case_first; case_second; case_third] true []))
           suite_of_three _ _ eq_refl).
Defined.

Lemma duplicate_name_overwrites_and_counts_twice_witness :
  TestCase.name case_first_again = TestCase.name case_first
  /\ Calico.items
       (Calico.add_cases Calico.init
          [case_first; case_second; case_first_again])
     = [("first", case_first_again); ("second", case_second)]
  /\ In (TestCase.name case_first)
       (OrderedDict.keys
          (Calico.items
             (Calico.add_cases
                (Calico.add_case (Calico.add_cases Calico.init []) case_first)
                [case_second])))
  /\ OrderedDict.get (TestCase.name case_first)
       (Calico.items
          (Calico.add_case
             (Calico.add_cases
                (Calico.add_case (Calico.add_cases Calico.init []) case_first)
                [case_second])
             case_first_again))
     = Some case_first_again
  /\ OrderedDict.keys
       (Calico.items
          (Calico.add_case
             (Calico.add_cases
                (Calico.add_case (Calico.add_cases Calico.init []) case_first)
                [case_second])
             case_first_again))
     = OrderedDict.keys
         (Calico.items
            (Calico.add_cases
               (Calico.add_case (Calico.add_cases Calico.init []) case_first)
               [case_second]))
  /\ NoDup
       (OrderedDict.keys
          (Calico.items
             (Calico.add_case
                (Calico.add_cases
                   (Calico.add_case (Calico.add_cases Calico.init []) case_first)
                   [case_second])
                case_first_again)))
  /\ (forall k, k <> TestCase.name case_first ->
        OrderedDict.get k
          (Calico.items
             (Calico.add_case
                (Calico.add_cases
                   (Calico.add_case (Calico.add_cases Calico.init []) case_first)
                   [case_second])
                case_first_again))
        = OrderedDict.get k
            (Calico.items
               (Calico.add_cases
                  (Calico.add_case (Calico.add_cases Calico.init []) case_first)
                  [case_second])))
  /\ Calico.points
       (Calico.add_case
          (Calico.add_cases
             (Calico.add_case (Calico.add_cases Calico.init []) case_first)
             [case_second])
          case_first_again)
     = sum_points [] + points_or_zero case_first + sum_points [case_second]
       + points_or_zero case_first_again.
Proof.
  split; [reflexivity|]. split; [reflexivity|].
  exact (duplicate_name_overwrites_and_counts_twice
           [] [case_second] case_first case_first_again eq_refl).
Defined.

(** The points of the suite after the second case named first: 10 for the
    case that was replaced, 20 and 7. *)
Example duplicate_name_points :
  Calico.points
    (Calico.add_cases Calico.init [case_first; case_second; case_first_again])
  = 37.
Proof. reflexivity. Qed.

Lemma case_named_points_is_overwritten_witness :
  OrderedDict.get "points" (Calico.items suite_points) = Some case_points
  /\ Calico.run shell suite_points true []
     = (Some (suite_points,
              [("points", Number 15);
               ("first",
                CaseReport {| Report.errors := []; Report.points := Some 10 |})]),
        [Setenv "TERM" "dumb";
         Spawn "echo hi; exit 3"; Setecho false; Expect (Str "hi") None;
         Close true;
         Spawn "echo hi; exit 3"; Setecho false; Expect (Str "hi") None;
         Close true])
  /\ exists rep earned,
       OrderedDict.get "points"
         [("points", Number 15);
          ("first",
           CaseReport {| Report.errors := []; Report.points := Some 10 |})]
       = Some (Number earned)
       /\ earned = sum_awarded rep
       /\ (forall r,
             ~ In ("points", CaseReport r)
                 [("points", Number 15);
                  ("first",
                   CaseReport {| Report.errors := [];
                                 Report.points := Some 10 |})])
       /\ In ("points",
              CaseReport
                (graded case_points
                   {| Report.errors := []; Report.points := None |}))
            rep.
Proof.
  split; [reflexivity|]. split; [reflexivity|].
  destruct (case_named_points_is_overwritten shell true
              suite_points suite_points case_points
              [("points", Number 15);
               ("first",
                CaseReport {| Report.errors := []; Report.points := Some 10 |})]
              []
              [Setenv "TERM" "dumb";
               Spawn "echo hi; exit 3"; Setecho false; Expect (Str "hi") None;
               Close true;
               Spawn "echo hi; exit 3"; Setecho false; Expect (Str "hi") None;
               Close true]
              (add_cases_NoDup Calico.init [case_points; case_first]
                 (NoDup_nil string))
              eq_refl eq_refl)
    as [ex [rep [earned [E1 [E2 [E3 [E4 [E5 E6]]]]]]]].
  exists rep, earned.
  split; [exact E3|]. split; [exact E2|]. split; [exact E4|].
  apply (E6 [] [("first", case_first)] [] 0 [Setenv "TERM" "dumb"]
           {| Report.errors := []; Report.points := None |}
           [Setenv "TERM" "dumb";
            Spawn "echo hi; exit 3"; Setecho false; Expect (Str "hi") None;
            Close true]); reflexivity.
Defined.

(** The report of the case named points, as the loop leaves it in the run
    above: the case was run and carries its 5 points, which count in the
    15 earned points. *)
Example suite_points_loop :
  fst (Calico.run_cases shell true (Calico.items suite_points) [] 0
         [Setenv "TERM" "dumb"])
  = Some (Exhausted,
          [("points",
            CaseReport {| Report.errors := []; Report.points := Some 5 |});
           ("first",
            CaseReport {| Report.errors := []; Report.points := Some 10 |})],
          15).
Proof. reflexivity. Qed.

(** C10 as worded fails: the suite has a case named points, which would
    pass and earn 5 points, after a blocker that fails.  The case is not
    run (the only process spawned is that of the blocker) and not scored
    (0 points are earned). *)
Lemma case_named_points_is_not_run :
  OrderedDict.get "points" (Calico.items suite_gate) = Some case_points
  /\ TestCase.command case_points = "echo hi; exit 3"
  /\ Calico.run shell suite_gate true []
     = (Some (suite_gate,
              [("gate",
                CaseReport {| Report.errors := ["Expected output not received."];
                              Report.points := None |});
               ("points", Number 0)]),
        [Setenv "TERM" "dumb";
         Spawn "true"; Setecho false; Expect (Str "ready") None; Close true])
  /\ spawned
       [Setenv "TERM" "dumb";
        Spawn "true"; Setecho false; Expect (Str "ready") None; Close true]
     = ["true"].
Proof. repeat split. Qed.

(** * Further properties *)

(** ** Actions and scripts *)

(** The values an action yields are those it was built from: its type as
    the letter of the member, its data as the string given, "_EOF_" for the
    end-of-stream marker included, and its timeout. *)
Theorem action_iter_init (type_ : ActionType) (data : string)
  (timeout : option Z) :
  Action.iter (Action.init type_ data timeout)
  = (match type_ with EXPECT => "e" | SEND => "s" end, data, timeout).
Proof.
  unfold Action.iter, Action.init. simpl.
  destruct (String.eqb_spec data "_EOF_") as [->|N]; simpl;
    now destruct type_.
Qed.

(** Two actions built from different types, data or timeouts differ. *)
Theorem action_init_injective (type_ type_' : ActionType)
  (data data' : string) (timeout timeout' : option Z) :
  Action.init type_ data timeout = Action.init type_' data' timeout' ->
  type_ = type_' /\ data = data' /\ timeout = timeout'.
Proof.
  intros H.
  pose proof (f_equal Action.type_ H) as Ht.
  pose proof (f_equal Action.data H) as Hd.
  pose proof (f_equal Action.timeout H) as Hm.
  simpl in Ht, Hd, Hm. split; [exact Ht|]. split; [|exact Hm].
  destruct (String.eqb_spec data "_EOF_") as [->|N];
    destruct (String.eqb_spec data' "_EOF_") as [->|N']; simpl in Hd;
    congruence.
Qed.

Lemma action_init_injective_witness :
  Action.init EXPECT "hi" (Some 2) = Action.init EXPECT "hi" (Some 2)
  /\ EXPECT = EXPECT /\ "hi" = "hi" /\ Some 2 = Some 2.
Proof.
  split; [reflexivity|].
  apply (action_init_injective EXPECT EXPECT "hi" "hi" (Some 2) (Some 2)).
  reflexivity.
Defined.

Lemma add_actions_script (self : TestCase.t) (actions : list Action.t) :
  TestCase.script (add_actions self actions) = TestCase.script self ++ actions
  /\ TestCase.name (add_actions self actions) = TestCase.name self
  /\ TestCase.command (add_actions self actions) = TestCase.command self
  /\ TestCase.timeout (add_actions self actions) = TestCase.timeout self
  /\ TestCase.returns (add_actions self actions) = TestCase.returns self
  /\ TestCase.points (add_actions self actions) = TestCase.points self
  /\ TestCase.blocker (add_actions self actions) = TestCase.blocker self
  /\ TestCase.visible (add_actions self actions) = TestCase.visible self.
Proof.
  revert self. unfold add_actions.
  induction actions as [|a actions IH]; intros self; simpl.
  - rewrite app_nil_r. repeat split.
  - destruct (IH (TestCase.add_action self a)) as [E1 [E2 [E3 [E4 [E5 [E6 [E7 E8]]]]]]].
    rewrite E1, E2, E3, E4, E5, E6, E7, E8. simpl.
    rewrite <- app_assoc. repeat split.
Qed.

(** A new case has an empty script, and after any sequence of
    [add_action] calls its script is the actions added, in the order of the
    calls; the calls leave the other attributes as the constructor set
    them. *)
Theorem script_is_actions_added (name command : string)
  (timeout returns points : option Z) (blocker visible : bool)
  (actions : list Action.t) :
  add_actions
    (TestCase.init name command timeout returns points blocker visible)
    actions
  = {| TestCase.name := name; TestCase.command := command;
       TestCase.script := actions;
       TestCase.timeout := timeout; TestCase.returns := returns;
       TestCase.points := points; TestCase.blocker := blocker;
       TestCase.visible := visible |}.
Proof.
  destruct (add_actions_script
              (TestCase.init name command timeout returns points blocker visible)
              actions) as [E1 [E2 [E3 [E4 [E5 [E6 [E7 E8]]]]]]].
  destruct (add_actions _ actions); simpl in *. congruence.
Qed.

(** ** The calls of a replay *)

Section ReplayTrace.

Variable w : World.

(** The loop passes over every action that is not an expect action. *)
Lemma replay_expects (script : list Action.t) (errors : list string)
  (h : list call) :
  TestCase.replay w script errors h
  = TestCase.replay w (expects script) errors h.
Proof.
  revert errors h. unfold expects.
  induction script as [|a script IH]; intros errors h; simpl.
  - reflexivity.
  - destruct (ActionType_eqb (Action.type_ a) EXPECT) eqn:E; simpl.
    + rewrite E. unfold bind, expect.
      destruct (expect_result w (h ++ [Expect (Action.data a) (Action.timeout a)]))
        as [[| |]|]; simpl; try reflexivity.
      apply IH.
    + unfold Action.eq_ActionType. apply IH.
Qed.

(** The calls of the loop: the expect calls of the first expect actions,
    all of them when the loop runs to its end, followed by a forced close
    when the loop is left through [break]. *)
Lemma replay_trace (script : list Action.t) (errors errors' : list string)
  (h h' : list call) (ex : LoopExit) :
  TestCase.replay w script errors h = (Some (ex, errors'), h') ->
  exists n,
    h' = h ++ map expect_call (firstn n (expects script))
           ++ match ex with Break => [Close true] | Exhausted => [] end
    /\ (ex = Exhausted -> n = List.length (expects script))
    /\ (ex = Break -> (0 < n)%nat).
Proof.
  revert errors h. unfold expects.
  induction script as [|a script IH]; intros errors h; simpl.
  - unfold ret. intros H. inversion H. subst.
    exists 0%nat. simpl. rewrite app_nil_r.
    split; [reflexivity|]. split; [reflexivity | discriminate].
  - destruct (ActionType_eqb (Action.type_ a) EXPECT) eqn:E; simpl.
    + unfold bind, expect, do_call, ret.
      destruct (expect_result w (h ++ [Expect (Action.data a) (Action.timeout a)]))
        as [[| |]|]; simpl; try discriminate.
      * intros H. destruct (IH _ _ H) as [n [E1 [E2 E3]]].
        exists (S n). simpl. rewrite E1, <- app_assoc.
        split; [reflexivity|]. split; [intros X; now rewrite (E2 X) | lia].
      * intros H. inversion H. subst. exists 1%nat. simpl.
        rewrite <- app_assoc. simpl.
        split; [reflexivity|]. split; [discriminate | lia].
      * intros H. inversion H. subst. exists 1%nat. simpl.
        rewrite <- app_assoc. simpl.
        split; [reflexivity|]. split; [discriminate | lia].
    + unfold Action.eq_ActionType. apply IH.
Qed.

(** The calls of a replay that returns: the command is spawned, the echo
    is turned off, expect calls are made for the first expect actions of
    the script, in order and each with the data and the timeout of its
    action, and the process is closed by force, which is the last call.
    The exit status is read after this close.  All expect actions are
    waited for when no error is returned, at least one when there is
    one. *)
Theorem run_script_trace (self : TestCase.t) (command : string)
  (h h' : list call) (status : option Z) (errors : list string) :
  TestCase.run_script w self command h = (Some (status, errors), h') ->
  exists n,
    h' = h ++ Spawn command :: Setecho false
           :: map expect_call (firstn n (expects (TestCase.script self)))
           ++ [Close true]
    /\ status = exitstatus w h'
    /\ (errors = [] -> n = List.length (expects (TestCase.script self)))
    /\ (errors <> [] -> (0 < n)%nat).
Proof.
  unfold TestCase.run_script, bind, do_call, get_exitstatus, ret. simpl.
  destruct (TestCase.replay w (TestCase.script self) []
              ((h ++ [Spawn command]) ++ [Setecho false]))
    as [[[[|] errors']|] h1] eqn:E; try discriminate;
    intros H; inversion H; subst; clear H;
    destruct (replay_trace _ _ _ _ _ _ E) as [n [E1 [E2 E3]]].
  - exists n. apply replay_exhausted in E. subst.
    rewrite app_nil_r, <- !app_assoc. simpl.
    split; [reflexivity|]. split; [reflexivity|].
    split; [intros _; now apply E2 | congruence].
  - exists n. subst. rewrite <- !app_assoc. simpl.
    split; [reflexivity|]. split; [reflexivity|].
    split; [|intros _; now apply E3].
    intros X. apply replay_break in E. simpl in E.
    destruct E as [E|E]; rewrite E in X; discriminate.
Qed.

(** A run of a case that returns has no errors if and only if the loop
    over the script runs to its end, every expect action having found its
    pattern, and the exit status is the expected one when one is set. *)
Theorem run_passes_iff (self : TestCase.t) (jailed : bool)
  (h h' : list call) (r : Report.t) :
  TestCase.run w self jailed h = (Some r, h') ->
  (Report.errors r = [] <->
   (exists h1,
      TestCase.replay w (TestCase.script self) []
        (h ++ [Spawn (TestCase.jail_prefix w jailed ++ TestCase.command self)%string;
               Setecho false])
      = (Some (Exhausted, []), h1))
   /\ (forall expected,
         TestCase.returns self = Some expected ->
         exitstatus w h' = Some expected)).
Proof.
  unfold TestCase.run, TestCase.run_script, bind, do_call, get_exitstatus, ret.
  simpl. rewrite <- !app_assoc. simpl.
  destruct (TestCase.replay w (TestCase.script self) []
              (h ++ [Spawn (TestCase.jail_prefix w jailed ++ TestCase.command self)%string;
                     Setecho false]))
    as [[[[|] errors]|] h1] eqn:E; try discriminate;
    intros H; inversion H; subst; clear H; simpl.
  - pose proof (replay_exhausted _ _ _ _ _ _ E) as X. subst errors.
    destruct (TestCase.returns self) as [expected|]; simpl.
    + destruct (TestCase.status_differs (exitstatus w (h1 ++ [Close true])) expected)
        eqn:D.
      * apply status_differs_spec in D. split; [discriminate|].
        intros [_ X]. exfalso. apply D. now apply X.
      * split; [|reflexivity]. intros _. split; [now exists h1|].
        intros e He. inversion He. subst e.
        destruct (exitstatus w (h1 ++ [Close true])) as [s|]; simpl in D;
          [|discriminate].
        apply negb_false_iff, Z.eqb_eq in D. now subst.
    + split; [|reflexivity]. intros _. split; [now exists h1 | discriminate].
  - assert (N : errors <> []).
    { apply replay_break in E. simpl in E. destruct E as [E|E]; subst;
        discriminate. }
    split.
    + intros X. exfalso.
      destruct (TestCase.returns self) as [expected|];
        [destruct (TestCase.status_differs (exitstatus w h') expected)|];
        destruct errors; try discriminate; now apply N.
    + intros [[h2 X] _]. discriminate.
Qed.

(** The errors of a run of a case that returns: at most one error of the
    replay, then at most the error of the exit status; the report of the
    run has no points. *)
Theorem run_error_lists (self : TestCase.t) (jailed : bool)
  (h h' : list call) (r : Report.t) :
  TestCase.run w self jailed h = (Some r, h') ->
  Report.points r = None
  /\ In (Report.errors r)
       [ [];
         ["Expected output not received."];
         ["Timeout exceeded."];
         ["Incorrect exit status."];
         ["Expected output not received."; "Incorrect exit status."];
         ["Timeout exceeded."; "Incorrect exit status."] ].
Proof.
  unfold TestCase.run, bind, ret.
  destruct (TestCase.run_script w self _ h) as [[[status errors]|] h1] eqn:E;
    [|discriminate].
  intros H. inversion H. subst. clear H. simpl. split; [reflexivity|].
  destruct (run_script_errors w _ _ _ _ _ _ E) as [X|[X|X]]; subst errors;
    destruct (TestCase.returns self) as [expected|];
    try destruct (TestCase.status_differs status expected); simpl; tauto.
Qed.

(** The actions of a script that are not expect actions have no effect on
    a replay: a case replays as the case with the expect actions only. *)
Theorem send_actions_are_skipped (self self' : TestCase.t) (command : string)
  (h : list call) :
  TestCase.script self' = expects (TestCase.script self) ->
  TestCase.run_script w self command h = TestCase.run_script w self' command h.
Proof.
  intros H. unfold TestCase.run_script, bind, do_call. simpl.
  now rewrite H, (replay_expects (TestCase.script self)).
Qed.

(** A case whose script has no expect action, an empty script included,
    never waits: its replay returns without errors after the command has
    been spawned, the echo turned off and the process closed by force. *)
Theorem script_without_expect_returns (self : TestCase.t) (command : string)
  (h : list call) :
  Forall (fun a => Action.type_ a <> EXPECT) (TestCase.script self) ->
  let h' := h ++ [Spawn command; Setecho false; Close true] in
  TestCase.run_script w self command h = (Some (exitstatus w h', []), h').
Proof.
  intros H h'. subst h'.
  assert (E : expects (TestCase.script self) = []).
  { unfold expects. induction H as [|a l Ha _ IH]; simpl; [reflexivity|].
    destruct (Action.type_ a); [congruence | exact IH]. }
  unfold TestCase.run_script, bind, do_call, get_exitstatus, ret. simpl.
  rewrite replay_expects, E. simpl. unfold ret.
  now rewrite <- !app_assoc.
Qed.

End ReplayTrace.

Lemma run_script_trace_witness :
  TestCase.run_script shell case_eof "echo hi; exit 3" []
  = (Some (Some 3, ["Expected output not received."]),
     [Spawn "echo hi; exit 3"; Setecho false; Expect (Str "hi") None;
      Expect (Str "bye") None; Close true])
  /\ exists n,
       [Spawn "echo hi; exit 3"; Setecho false; Expect (Str "hi") None;
        Expect (Str "bye") None; Close true]
       = [] ++ Spawn "echo hi; exit 3" :: Setecho false
            :: map expect_call (firstn n (expects (TestCase.script case_eof)))
            ++ [Close true]
       /\ Some 3
          = exitstatus shell
              [Spawn "echo hi; exit 3"; Setecho false; Expect (Str "hi") None;
               Expect (Str "bye") None; Close true]
       /\ (["Expected output not received."] = [] ->
           n = List.length (expects (TestCase.script case_eof)))
       /\ (["Expected output not received."] <> [] -> (0 < n)%nat).
Proof.
  split; [reflexivity|].
  apply (run_script_trace shell case_eof "echo hi; exit 3" []). reflexivity.
Defined.

Lemma run_passes_iff_witness :
  TestCase.run shell case_first false []
  = (Some {| Report.errors := []; Report.points := None |},
     [Spawn "echo hi; exit 3"; Setecho false; Expect (Str "hi") None;
      Close true])
  /\ (Report.errors {| Report.errors := []; Report.points := None |} = [] <->
      (exists h1,
         TestCase.replay shell (TestCase.script case_first) []
           ([] ++ [Spawn (TestCase.jail_prefix shell false
                          ++ TestCase.command case_first)%string;
                   Setecho false])
         = (Some (Exhausted, []), h1))
      /\ (forall expected,
            TestCase.returns case_first = Some expected ->
            exitstatus shell
              [Spawn "echo hi; exit 3"; Setecho false; Expect (Str "hi") None;
               Close true]
            = Some expected)).
Proof.
  split; [reflexivity|].
  apply (run_passes_iff shell case_first false []
           [Spawn "echo hi; exit 3"; Setecho false; Expect (Str "hi") None;
            Close true]
           {| Report.errors := []; Report.points := None |}).
  reflexivity.
Defined.

Lemma run_error_lists_witness :
  TestCase.run shell case_status false []
  = (Some {| Report.errors := ["Incorrect exit status."];
             Report.points := None |},
     [Spawn "echo hi; exit 3"; Setecho false; Expect (Str "hi") None;
      Close true])
  /\ Report.points {| Report.errors := ["Incorrect exit status."];
                      Report.points := None |} = None
  /\ In ["Incorrect exit status."]
       [ [];
         ["Expected output not received."];
         ["Timeout exceeded."];
         ["Incorrect exit status."];
         ["Expected output not received."; "Incorrect exit status."];
         ["Timeout exceeded."; "Incorrect exit status."] ].
Proof.
  split; [reflexivity|].
  apply (run_error_lists shell case_status false []
           [Spawn "echo hi; exit 3"; Setecho false; Expect (Str "hi") None;
            Close true]
           {| Report.errors := ["Incorrect exit status."];
              Report.points := None |}).
  reflexivity.
Defined.

Lemma send_actions_are_skipped_witness :
  TestCase.script case_eof_expects = expects (TestCase.script case_eof)
  /\ TestCase.run_script shell case_eof "echo hi; exit 3" []
     = TestCase.run_script shell case_eof_expects "echo hi; exit 3" [].
Proof.
  split; [reflexivity|].
  apply (send_actions_are_skipped shell case_eof case_eof_expects). reflexivity.
Defined.

Lemma script_without_expect_returns_witness :
  Forall (fun a => Action.type_ a <> EXPECT) (TestCase.script case_send)
  /\ TestCase.run_script shell case_send "cat" []
     = (Some (exitstatus shell [Spawn "cat"; Setecho false; Close true], []),
        [Spawn "cat"; Setecho false; Close true]).
Proof.
  assert (H : Forall (fun a => Action.type_ a <> EXPECT)
                (TestCase.script case_send)).
  { repeat constructor; discriminate. }
  split; [exact H|].
  apply (script_without_expect_returns shell case_send "cat" [] H).
Defined.

(** ** The cases of a suite *)

Lemma find_app_last {A : Type} (f : A -> bool) (l : list A) (x : A) :
  find f (l ++ [x])
  = match find f l with
    | Some y => Some y
    | None => if f x then Some x else None
    end.
Proof.
  induction l as [|a l IH]; simpl; [reflexivity|].
  now destruct (f a).
Qed.

Lemma get_set k (c : TestCase.t) (d : OrderedDict.t TestCase.t) (k' : string) :
  OrderedDict.get k' (OrderedDict.set k c d)
  = if String.eqb k k' then Some c else OrderedDict.get k' d.
Proof.
  destruct (String.eqb_spec k k') as [->|N].
  - apply get_set_same.
  - now apply get_set_other.
Qed.

Lemma add_cases_lookup (s : Calico.t) (cases : list TestCase.t) (k : string) :
  OrderedDict.get k (Calico.items (Calico.add_cases s cases))
  = match last_added k cases with
    | Some c => Some c
    | None => OrderedDict.get k (Calico.items s)
    end.
Proof.
  revert s. unfold Calico.add_cases, last_added.
  induction cases as [|c cases IH]; intros s; simpl.
  - reflexivity.
  - rewrite IH, find_app_last. simpl.
    destruct (find (fun c0 => String.eqb (TestCase.name c0) k) (rev cases));
      [reflexivity|].
    rewrite get_set. now destruct (String.eqb (TestCase.name c) k).
Qed.

(** After any sequence of [add_case] calls on a new suite, a name leads
    to the last case added under it, and to no case when none was added
    under it. *)
Theorem lookup_is_last_added (cases : list TestCase.t) (k : string) :
  OrderedDict.get k (Calico.items (Calico.add_cases Calico.init cases))
  = last_added k cases.
Proof.
  rewrite add_cases_lookup. simpl. now destruct (last_added k cases).
Qed.

Lemma add_cases_distinct (s : Calico.t) (cases : list TestCase.t) :
  NoDup (OrderedDict.keys (Calico.items s) ++ map TestCase.name cases) ->
  Calico.items (Calico.add_cases s cases) = Calico.items s ++ map entry cases.
Proof.
  revert s. unfold Calico.add_cases.
  induction cases as [|c cases IH]; intros s H; simpl.
  - now rewrite app_nil_r.
  - assert (N : ~ In (TestCase.name c) (OrderedDict.keys (Calico.items s))).
    { intros I. apply NoDup_remove_2 in H. apply H, in_or_app. now left. }
    rewrite IH; simpl; rewrite (set_new _ _ _ N).
    + now rewrite <- app_assoc.
    + unfold OrderedDict.keys. rewrite map_app, <- app_assoc. exact H.
Qed.

Lemma distinct_names_keep_insertion_order_aux (cases : list TestCase.t) :
  NoDup (map TestCase.name cases) ->
  Calico.items (Calico.add_cases Calico.init cases) = map entry cases.
Proof.
  intros H. now rewrite add_cases_distinct.
Qed.

(** When the cases added to a new suite have distinct names, the suite
    holds exactly these cases, each under its name, in the order they were
    added. *)
Theorem distinct_names_keep_insertion_order (cases : list TestCase.t) :
  NoDup (map TestCase.name cases) ->
  Calico.items (Calico.add_cases Calico.init cases) = map entry cases.
Proof.
  intros H. now rewrite add_cases_distinct.
Qed.

Lemma distinct_names_keep_insertion_order_witness :
  NoDup (map TestCase.name [case_first; case_second; case_third])
  /\ Calico.items
       (Calico.add_cases Calico.init [case_first; case_second; case_third])
     = map entry [case_first; case_second; case_third].
Proof.
  assert (H : NoDup (map TestCase.name [case_first; case_second; case_third])).
  { simpl. repeat constructor; simpl; intuition discriminate. }
  split; [exact H|].
  apply (distinct_names_keep_insertion_order
           [case_first; case_second; case_third] H).
Defined.

(** ** The points a run can earn *)

Lemma sum_points_app (l l' : list TestCase.t) :
  sum_points (l ++ l') = sum_points l + sum_points l'.
Proof.
  unfold sum_points. induction l as [|c l IH]; simpl; lia.
Qed.



Section EarnedPoints.

Variable w : World.
Variable quiet : bool.




End EarnedPoints.


(** ** When a run stops, and what it leaves *)

Section SuiteRuns.

Variable w : World.
Variable quiet : bool.

(** The loop runs every case, or is left right after the run of a blocker
    that has errors. *)
Lemma run_cases_stops (cases : list (string * TestCase.t)) :
  forall (rep rep' : OrderedDict.t ReportValue) (e e' : Z) (h h' : list call)
         (ex : LoopExit),
  Calico.run_cases w quiet cases rep e h = (Some (ex, rep', e'), h') ->
  (ex = Exhausted
   /\ spawned h' = spawned h ++ map (command_line w) cases)
  \/ (ex = Break
      /\ exists pre k t post h1 r,
           cases = pre ++ (k, t) :: post
           /\ TestCase.blocker t = true
           /\ TestCase.run w t (SUPPORTS_JAIL w && String.prefix "case_" k) h1
              = (Some r, h')
           /\ Report.errors r <> []
           /\ spawned h' = spawned h ++ map (command_line w) (pre ++ [(k, t)])).
Proof.
  induction cases as [|[k t] cases IH]; intros rep rep' e e' h h' ex H.
  - simpl in H. unfold ret in H. inversion H. subst. left.
    simpl. now rewrite app_nil_r.
  - rewrite run_cases_cons in H.
    destruct (TestCase.run w t (SUPPORTS_JAIL w && String.prefix "case_" k) h)
      as [[r|] h1] eqn:Hrun; [|discriminate].
    cbv zeta in H.
    assert (Hsp : spawned h1 = spawned h ++ [command_line w (k, t)]).
    { pose proof (run_spawned w t (SUPPORTS_JAIL w && String.prefix "case_" k) h) as S.
      now rewrite Hrun in S. }
    destruct (TestCase.blocker t) eqn:Hb; simpl in H.
    + destruct (Report.errors r) as [|msg errors] eqn:He; simpl in H.
      * apply IH in H. destruct H as [[E1 E2]|[E1 H]].
        -- left. split; [exact E1|]. simpl. now rewrite E2, Hsp, <- app_assoc.
        -- right. split; [exact E1|].
           destruct H as [pre [k' [t' [post [h2 [r' [C [B [R [N S]]]]]]]]]].
           exists ((k, t) :: pre), k', t', post, h2, r'.
           rewrite C. repeat (split; [assumption || reflexivity|]).
           simpl. now rewrite S, Hsp, <- app_assoc.
      * inversion H. subst. right. split; [reflexivity|].
        exists [], k, t, cases, h, r. rewrite He.
        repeat (split; [assumption || reflexivity || discriminate|]).
        exact Hsp.
    + apply IH in H. destruct H as [[E1 E2]|[E1 H]].
      * left. split; [exact E1|]. simpl. now rewrite E2, Hsp, <- app_assoc.
      * right. split; [exact E1|].
        destruct H as [pre [k' [t' [post [h2 [r' [C [B [R [N S]]]]]]]]]].
        exists ((k, t) :: pre), k', t', post, h2, r'.
        rewrite C. repeat (split; [assumption || reflexivity|]).
        simpl. now rewrite S, Hsp, <- app_assoc.
Qed.

(** A run of a suite that returns has run every case, in order, or has
    stopped right after the run of a blocker that returned errors: a case
    that fails without being a blocker, or a blocker that passes, does not
    stop the run. *)
Theorem run_stops_only_at_failed_blocker (s self' : Calico.t)
  (final : OrderedDict.t ReportValue) (h h' : list call) :
  Calico.run w s quiet h = (Some (self', final), h') ->
  spawned h' = spawned h ++ map (command_line w) (Calico.items s)
  \/ exists pre k t post h1 r,
       Calico.items s = pre ++ (k, t) :: post
       /\ TestCase.blocker t = true
       /\ TestCase.run w t (SUPPORTS_JAIL w && String.prefix "case_" k) h1
          = (Some r, h')
       /\ Report.errors r <> []
       /\ spawned h' = spawned h ++ map (command_line w) (pre ++ [(k, t)]).
Proof.
  intros H. rewrite run_unfold in H.
  destruct (Calico.run_cases w quiet (Calico.items s) [] 0
              (h ++ [Setenv "TERM" "dumb"])) as [[[[ex rep] earned]|] h1] eqn:E;
    [|discriminate].
  inversion H. subst. clear H.
  assert (S : spawned (h ++ [Setenv "TERM" "dumb"]) = spawned h).
  { rewrite spawned_app. simpl. now rewrite app_nil_r. }
  apply run_cases_stops in E. rewrite S in E.
  destruct E as [[_ E]|[_ E]]; [now left | now right].
Qed.

(** When every report the loop leaves is without errors, the loop has run
    every case and has earned the points of all of them. *)
Lemma run_cases_all_pass (cases : list (string * TestCase.t)) :
  forall (rep rep' : OrderedDict.t ReportValue) (e e' : Z) (h h' : list call)
         (ex : LoopExit),
  NoDup (OrderedDict.keys cases) ->
  (forall k, In k (OrderedDict.keys cases) -> ~ In k (OrderedDict.keys rep)) ->
  Calico.run_cases w quiet cases rep e h = (Some (ex, rep', e'), h') ->
  (forall k r, In (k, CaseReport r) rep' -> ~ In k (OrderedDict.keys rep) ->
               Report.errors r = []) ->
  OrderedDict.keys rep' = OrderedDict.keys rep ++ OrderedDict.keys cases
  /\ e' = e + sum_points (map snd cases).
Proof.
  induction cases as [|[k t] cases IH];
    intros rep rep' e e' h h' ex Hnd Hdis H Hpass.
  - simpl in H. unfold ret in H. inversion H. subst.
    unfold sum_points. simpl. rewrite app_nil_r. split; [reflexivity | lia].
  - pose proof H as H0.
    apply run_cases_inv in H0; [|exact Hnd|exact Hdis].
    destruct H0 as [new [n [E1 _]]].
    rewrite run_cases_cons in H.
    destruct (TestCase.run w t (SUPPORTS_JAIL w && String.prefix "case_" k) h)
      as [[r|] h1] eqn:Hrun; [|discriminate].
    cbv zeta in H.
    assert (Hk : ~ In k (OrderedDict.keys rep)) by (apply Hdis; now left).
    rewrite (set_new k _ rep Hk) in H.
    simpl in Hnd. inversion Hnd as [|k0 ks Hnk Hnd']. subst k0 ks.
    assert (Hdis' : forall k0, In k0 (OrderedDict.keys cases) ->
              ~ In k0 (OrderedDict.keys (rep ++ [(k, CaseReport (graded t r))]))).
    { intros k0 Hk0. unfold OrderedDict.keys. rewrite map_app, in_app_iff.
      simpl. intros [I|[E|[]]].
      - apply (Hdis k0); [now right | exact I].
      - subst k0. contradiction. }
    assert (Hin : In (k, CaseReport (graded t r)) rep').
    { destruct (TestCase.blocker t && negb (Nat.eqb (List.length (Report.errors r)) 0)).
      - inversion H. subst. apply in_or_app. right. now left.
      - apply run_cases_inv in H; [|exact Hnd'|exact Hdis'].
        destruct H as [new' [n' [E' _]]]. rewrite E'.
        apply in_or_app. left. apply in_or_app. right. now left. }
    pose proof (Hpass k (graded t r) Hin Hk) as Herr.
    destruct (graded_all_or_nothing t r (run_no_points _ _ _ _ _ _ Hrun))
      as [Hg Hge].
    rewrite Hge in Herr. rewrite Herr in H. simpl in H.
    rewrite andb_false_r in H.
    apply IH in H; [|exact Hnd'|exact Hdis'|].
    + destruct H as [K S]. split.
      * rewrite K. unfold OrderedDict.keys. rewrite map_app. simpl.
        now rewrite <- app_assoc.
      * rewrite S. unfold sum_points. simpl.
        unfold awarded, graded, points_or_zero. rewrite Herr.
        destruct (TestCase.points t) as [p|]; simpl;
          [|rewrite (run_no_points _ _ _ _ _ _ Hrun)]; lia.
    + intros k0 r0 I N. apply (Hpass k0 r0 I).
      intros X. apply N. unfold OrderedDict.keys. rewrite map_app.
      apply in_or_app. now left.
Qed.

(** Full marks: in a suite built from cases with distinct names, none of
    them points, a run whose report shows no error for any case has run
    every case and has earned the points of the suite; the keys of the
    report are the names of the cases, in order, then ["points"]. *)
Theorem all_cases_pass_earns_total (cases : list TestCase.t)
  (self' : Calico.t) (final : OrderedDict.t ReportValue) (h h' : list call) :
  NoDup (map TestCase.name cases) ->
  ~ In "points" (map TestCase.name cases) ->
  Calico.run w (Calico.add_cases Calico.init cases) quiet h
  = (Some (self', final), h') ->
  (forall k r, In (k, CaseReport r) final -> Report.errors r = []) ->
  OrderedDict.get "points" final
  = Some (Number (Calico.points (Calico.add_cases Calico.init cases)))
  /\ OrderedDict.keys final = map TestCase.name cases ++ ["points"].
Proof.
  intros Hnd Hnp H Hpass.
  assert (Hk : OrderedDict.keys (map entry cases) = map TestCase.name cases).
  { unfold OrderedDict.keys. rewrite map_map. reflexivity. }
  assert (Hs : map snd (map entry cases) = cases).
  { rewrite map_map. simpl. apply map_id. }
  rewrite run_unfold, (distinct_names_keep_insertion_order_aux cases Hnd) in H.
  destruct (Calico.run_cases w quiet (map entry cases) [] 0
              (h ++ [Setenv "TERM" "dumb"])) as [[[[ex rep] earned]|] h1] eqn:E;
    [|discriminate].
  inversion H. subst self' final h1. clear H.
  apply run_cases_all_pass in E.
  - destruct E as [K S]. simpl in K. rewrite Hk in K. rewrite Hs in S.
    assert (N : ~ In "points" (OrderedDict.keys rep)) by now rewrite K.
    rewrite get_set_same, (set_keys_new _ _ _ N), K.
    rewrite add_cases_points. simpl. split; [now rewrite S | reflexivity].
  - now rewrite Hk.
  - intros k _ [].
  - intros k r I _. apply (Hpass k r).
    assert (N : ~ In "points" (OrderedDict.keys rep)).
    { intros X.
      assert (Hsub : forall k0, In k0 (OrderedDict.keys rep) ->
                       In k0 (map TestCase.name cases)).
      { pose proof E as E0.
        apply run_cases_inv in E0; [|now rewrite Hk|intros k0 _ []].
        destruct E0 as [new [n [E1 [E2 _]]]]. simpl in E1. subst new.
        intros k0 I0. rewrite E2, Hk in I0. now apply In_firstn in I0. }
      apply Hnp. now apply Hsub. }
    rewrite (set_new _ _ _ N). apply in_or_app. now left.
Qed.

End SuiteRuns.

Lemma run_stops_only_at_failed_blocker_witness :
  Calico.run shell suite_of_three true []
  = (Some (suite_of_three,
           [("first",
             CaseReport {| Report.errors := []; Report.points := Some 10 |});
            ("second",
             CaseReport {| Report.errors := ["Expected output not received."];
                           Report.points := Some 0 |});
            ("points", Number 10)]),
     [Setenv "TERM" "dumb";
      Spawn "echo hi; exit 3"; Setecho false; Expect (Str "hi") None; Close true;
      Spawn "true"; Setecho false; Expect (Str "ready") None; Close true])
  /\ (spawned
        [Setenv "TERM" "dumb";
         Spawn "echo hi; exit 3"; Setecho false; Expect (Str "hi") None;
         Close true;
         Spawn "true"; Setecho false; Expect (Str "ready") None; Close true]
      = spawned [] ++ map (command_line shell) (Calico.items suite_of_three)
      \/ exists pre k t post h1 r,
           Calico.items suite_of_three = pre ++ (k, t) :: post
           /\ TestCase.blocker t = true
           /\ TestCase.run shell t
                (SUPPORTS_JAIL shell && String.prefix "case_" k) h1
              = (Some r,
                 [Setenv "TERM" "dumb";
                  Spawn "echo hi; exit 3"; Setecho false;
                  Expect (Str "hi") None; Close true;
                  Spawn "true"; Setecho false; Expect (Str "ready") None;
                  Close true])
           /\ Report.errors r <> []
           /\ spawned
                [Setenv "TERM" "dumb";
                 Spawn "echo hi; exit 3"; Setecho false;
                 Expect (Str "hi") None; Close true;
                 Spawn "true"; Setecho false; Expect (Str "ready") None;
                 Close true]
              = spawned [] ++ map (command_line shell) (pre ++ [(k, t)])).
Proof.
  split; [reflexivity|].
  apply (run_stops_only_at_failed_blocker shell true
           suite_of_three suite_of_three
           [("first",
             CaseReport {| Report.errors := []; Report.points := Some 10 |});
            ("second",
             CaseReport {| Report.errors := ["Expected output not received."];
                           Report.points := Some 0 |});
            ("points", Number 10)]
           []).
  reflexivity.
Defined.

Lemma all_cases_pass_earns_total_witness :
  Calico.run shell suite_passing true []
  = (Some (suite_passing,
           [("first",
             CaseReport {| Report.errors := []; Report.points := Some 10 |});
            ("third",
             CaseReport {| Report.errors := []; Report.points := Some 30 |});
            ("points", Number 40)]),
     [Setenv "TERM" "dumb";
      Spawn "echo hi; exit 3"; Setecho false; Expect (Str "hi") None; Close true;
      Spawn "echo hi; exit 3"; Setecho false; Expect (Str "hi") None;
      Close true])
  /\ OrderedDict.get "points"
       [("first",
         CaseReport {| Report.errors := []; Report.points := Some 10 |});
        ("third",
         CaseReport {| Report.errors := []; Report.points := Some 30 |});
        ("points", Number 40)]
     = Some (Number
               (Calico.points
                  (Calico.add_cases Calico.init [case_first; case_third])))
  /\ OrderedDict.keys
       [("first",
         CaseReport {| Report.errors := []; Report.points := Some 10 |});
        ("third",
         CaseReport {| Report.errors := []; Report.points := Some 30 |});
        ("points", Number 40)]
     = map TestCase.name [case_first; case_third] ++ ["points"].
Proof.
  split; [reflexivity|].
  apply (all_cases_pass_earns_total shell true [case_first; case_third]
           suite_passing _ []
           [Setenv "TERM" "dumb";
            Spawn "echo hi; exit 3"; Setecho false; Expect (Str "hi") None;
            Close true;
            Spawn "echo hi; exit 3"; Setecho false; Expect (Str "hi") None;
            Close true]).
  - simpl. repeat constructor; simpl; intuition discriminate.
  - simpl. intuition discriminate.
  - reflexivity.
  - intros k r [E|[E|[E|[]]]]; inversion E; reflexivity.
Defined.

(** ** The environment and the keys of the report *)

Section SuiteCalls.

Variable w : World.
Variable quiet : bool.

Lemma run_calls (t : TestCase.t) (jailed : bool) (h : list call) :
  exists calls,
    snd (TestCase.run w t jailed h) = h ++ calls
    /\ Forall (fun c => forall k v, c <> Setenv k v) calls.
Proof.
  destruct (run_script_calls w t
              (TestCase.jail_prefix w jailed ++ TestCase.command t)%string h)
    as [calls [E F]].
  exists (Spawn (TestCase.jail_prefix w jailed ++ TestCase.command t)%string
          :: Setecho false :: calls).
  split.
  - unfold TestCase.run, bind, ret.
    destruct (TestCase.run_script w t _ h) as [[[status errors]|] h1];
      simpl in *; exact E.
  - repeat (constructor; [discriminate|]).
    eapply Forall_impl; [|exact F].
    intros c Hc k v ->. exact Hc.
Qed.

Lemma run_cases_calls (cases : list (string * TestCase.t)) :
  forall (rep : OrderedDict.t ReportValue) (e : Z) (h : list call),
  exists calls,
    snd (Calico.run_cases w quiet cases rep e h) = h ++ calls
    /\ Forall (fun c => forall k v, c <> Setenv k v) calls.
Proof.
  induction cases as [|[k t] cases IH]; intros rep e h.
  - exists []. simpl. rewrite app_nil_r. auto.
  - rewrite run_cases_cons.
    destruct (run_calls t (SUPPORTS_JAIL w && String.prefix "case_" k) h)
      as [calls [E F]].
    destruct (TestCase.run w t (SUPPORTS_JAIL w && String.prefix "case_" k) h)
      as [[r|] h1]; simpl in E; subst h1; [|now exists calls].
    cbv zeta.
    destruct (TestCase.blocker t && negb (Nat.eqb (List.length (Report.errors r)) 0)).
    + now exists calls.
    + destruct (IH (OrderedDict.set k (CaseReport (graded t r)) rep)
                  (e + awarded (graded t r)) (h ++ calls)) as [calls' [E' F']].
      exists (calls ++ calls'). rewrite E', <- app_assoc.
      split; [reflexivity | now apply Forall_app].
Qed.

(** The first call of a run of a suite sets TERM to dumb in the
    environment, before any process is spawned, and the run does not touch
    the environment again; this holds for a run that never returns too. *)
Theorem run_sets_term_first_and_once (s : Calico.t) (h : list call) :
  exists calls,
    snd (Calico.run w s quiet h) = h ++ Setenv "TERM" "dumb" :: calls
    /\ Forall (fun c => forall k v, c <> Setenv k v) calls.
Proof.
  rewrite run_unfold.
  destruct (run_cases_calls (Calico.items s) [] 0 (h ++ [Setenv "TERM" "dumb"]))
    as [calls [E F]].
  exists calls. split; [|exact F].
  destruct (Calico.run_cases w quiet (Calico.items s) [] 0
              (h ++ [Setenv "TERM" "dumb"])) as [[[[ex rep] earned]|] h1];
    simpl in *; subst h1; now rewrite <- app_assoc.
Qed.

(** The keys of the report of a run that returns: the names of the cases
    that were run, a prefix of the names of the suite, in order, followed
    by ["points"], unless one of these cases is named points, in which case
    ["points"] stays where this case stands. *)
Theorem report_keys_in_order (s self' : Calico.t)
  (final : OrderedDict.t ReportValue) (h h' : list call) :
  NoDup (OrderedDict.keys (Calico.items s)) ->
  Calico.run w s quiet h = (Some (self', final), h') ->
  exists n,
    spawned h' = spawned h ++ map (command_line w) (firstn n (Calico.items s))
    /\ OrderedDict.keys final
       = firstn n (OrderedDict.keys (Calico.items s))
         ++ (if in_dec string_dec "points"
                  (firstn n (OrderedDict.keys (Calico.items s)))
             then [] else ["points"]).
Proof.
  intros Hnd H. rewrite run_unfold in H.
  destruct (Calico.run_cases w quiet (Calico.items s) [] 0
              (h ++ [Setenv "TERM" "dumb"])) as [[[[ex rep] earned]|] h1] eqn:E;
    [|discriminate].
  inversion H. subst self' final h1. clear H.
  apply run_cases_inv in E; [|exact Hnd|intros k _ []].
  destruct E as [new [n [E1 [E2 [_ [_ [_ E6]]]]]]].
  simpl in E1. subst new. exists n. split.
  - rewrite E6, spawned_app. simpl. now rewrite app_nil_r.
  - rewrite <- E2.
    destruct (in_dec string_dec "points" (OrderedDict.keys rep)) as [I|N].
    + rewrite app_nil_r. now apply set_keys_old.
    + now apply set_keys_new.
Qed.

End SuiteCalls.

Lemma report_keys_in_order_witness :
  Calico.run shell suite_points true []
  = (Some (suite_points,
           [("points", Number 15);
            ("first",
             CaseReport {| Report.errors := []; Report.points := Some 10 |})]),
     [Setenv "TERM" "dumb";
      Spawn "echo hi; exit 3"; Setecho false; Expect (Str "hi") None; Close true;
      Spawn "echo hi; exit 3"; Setecho false; Expect (Str "hi") None;
      Close true])
  /\ exists n,
       spawned
         [Setenv "TERM" "dumb";
          Spawn "echo hi; exit 3"; Setecho false; Expect (Str "hi") None;
          Close true;
          Spawn "echo hi; exit 3"; Setecho false; Expect (Str "hi") None;
          Close true]
       = spawned [] ++ map (command_line shell)
                         (firstn n (Calico.items suite_points))
       /\ OrderedDict.keys
            [("points", Number 15);
             ("first",
              CaseReport {| Report.errors := []; Report.points := Some 10 |})]
          = firstn n (OrderedDict.keys (Calico.items suite_points))
            ++ (if in_dec string_dec "points"
                     (firstn n (OrderedDict.keys (Calico.items suite_points)))
                then [] else ["points"]).
Proof.
  split; [reflexivity|].
  apply (report_keys_in_order shell true suite_points suite_points _ []);
    [apply add_cases_NoDup; constructor | reflexivity].
Defined.

(** ** The progress label *)




(** ** The command of a case *)

Lemma string_append_assoc (a b c : string) :
  ((a ++ b) ++ c = a ++ b ++ c)%string.
Proof.
  induction a as [|x a IH]; simpl; [reflexivity | now rewrite IH].
Qed.

(** A run of a case spawns one process and no more, whether it returns
    or not: that of the command of the case as it is, or behind
    [fakechroot chroot] and the current directory when the run is jailed. *)
Theorem run_spawns_jailed_command (w : World) (t : TestCase.t)
  (jailed : bool) (h : list call) :
  spawned (snd (TestCase.run w t jailed h))
  = spawned h
    ++ [if jailed
        then ("fakechroot chroot " ++ getcwd w ++ " " ++ TestCase.command t)%string
        else TestCase.command t].
Proof.
  rewrite run_spawned. unfold TestCase.jail_prefix.
  destruct jailed; [|reflexivity].
  now rewrite !string_append_assoc.
Qed.
